(** * A PNG relay between a watched directory and a chat channel

    Shallow embedding of [src/index.ts]: the start-up script (validation of
    the environment, creation of the client and of the watcher, login), the
    [ClientReady] listener with [verifyChannelAccess] and [setupFileWatcher],
    and the listener of the watcher's ['add'] event.

    The program is a sequence of calls into Node, chokidar and discord.js.
    Every such call is an [effect]; a run of a piece of the program is the
    list of effects it performs together with the way it ends (it returns or
    it throws).  What the outside answers (does the file exist, what does
    [channels.fetch] resolve to, does [send] reject) is read from a [world]
    handed to each listener. *)

From Stdlib Require Import ZArith Ascii String List Bool Lia.
From stdpp Require Import base option list strings gmap.

Open Scope string_scope.
Open Scope Z_scope.
Open Scope list_scope.

(** ** The functions of Node the script calls

    [path.extname] and [path.basename] as Node's [path] module has them for
    POSIX paths, loop for loop, and [String.prototype.toLowerCase].  A path
    is a string of bytes; the bytes of a character outside ASCII are never
    [/] or [.], so the loops cut a path where they cut it in Node. *)
Module Path.

Definition CHAR_FORWARD_SLASH : ascii := "/"%char.
Definition CHAR_DOT : ascii := "."%char.

(** [path.slice(from, to)] for [0 <= from <= to]. *)
Definition slice (path : string) (from to : Z) : string :=
  String.substring (Z.to_nat from) (Z.to_nat (to - from)) path.

(** The variables of the loop of [extname]; [-1] is "not seen yet". *)
Record scan := Scan {
  startDot : Z;
  startPart : Z;
  end_ : Z;
  matchedSlash : bool;
  preDotState : Z
}.

Definition scan0 : scan := Scan (-1) 0 (-1) true 0.

(** One turn of [for (let i = path.length - 1; i >= 0; --i)] per unfolding:
    the argument [n] is [i + 1]. *)
Fixpoint extname_loop (path : string) (n : nat) (s : scan) : scan :=
  match n with
  | O => s
  | S i =>
    match String.get i path with
    | None => s
    | Some code =>
      if Ascii.eqb code CHAR_FORWARD_SLASH then
        if negb (matchedSlash s) then
          (* startPart = i + 1; break *)
          Scan (startDot s) (Z.of_nat i + 1) (end_ s) (matchedSlash s) (preDotState s)
        else extname_loop path i s
      else
        let s1 :=
          if end_ s =? -1
          then Scan (startDot s) (startPart s) (Z.of_nat i + 1) false (preDotState s)
          else s in
        let s2 :=
          if Ascii.eqb code CHAR_DOT then
            if startDot s1 =? -1
            then Scan (Z.of_nat i) (startPart s1) (end_ s1) (matchedSlash s1) (preDotState s1)
            else if negb (preDotState s1 =? 1)
            then Scan (startDot s1) (startPart s1) (end_ s1) (matchedSlash s1) 1
            else s1
          else if negb (startDot s1 =? -1)
          then Scan (startDot s1) (startPart s1) (end_ s1) (matchedSlash s1) (-1)
          else s1 in
        extname_loop path i s2
    end
  end.

Definition extname (path : string) : string :=
  let s := extname_loop path (String.length path) scan0 in
  if (startDot s =? -1)
     || (end_ s =? -1)
     || (preDotState s =? 0)
     || ((preDotState s =? 1)
         && (startDot s =? end_ s - 1)
         && (startDot s =? startPart s + 1))
  then ""
  else slice path (startDot s) (end_ s).

(** The loop of [basename] when no suffix is given: [(start, end, matchedSlash)]. *)
Fixpoint basename_loop (path : string) (n : nat) (s : Z * Z * bool) : Z * Z * bool :=
  match n with
  | O => s
  | S i =>
    let '(start, e, matched) := s in
    match String.get i path with
    | None => s
    | Some code =>
      if Ascii.eqb code CHAR_FORWARD_SLASH then
        if negb matched then (Z.of_nat i + 1, e, matched)
        else basename_loop path i s
      else if e =? -1 then basename_loop path i (start, Z.of_nat i + 1, false)
      else basename_loop path i s
    end
  end.

Definition basename (path : string) : string :=
  let '(start, e, _) := basename_loop path (String.length path) (0, -1, true) in
  if e =? -1 then "" else slice path start e.

(** [toLowerCase]: [A]..[Z] go to [a]..[z] and every other byte is kept.
    Outside ASCII, JavaScript lower-cases further letters, none of them to
    [.], [p], [n] or [g]: the comparison of line 108 with [.png] gives the
    same answer. *)
Definition lower_char (c : ascii) : ascii :=
  let n := nat_of_ascii c in
  if (65 <=? n)%nat && (n <=? 90)%nat then ascii_of_nat (n + 32) else c.

Fixpoint toLowerCase (s : string) : string :=
  match s with
  | EmptyString => EmptyString
  | String c r => String (lower_char c) (toLowerCase r)
  end.

End Path.

(** ** Values, effects and the outside world *)

(** A thrown value: [new Error(message)], or the reason of a rejected promise. *)
Record exn := Error { message : string }.

(** What the script passes to [console.log], [console.warn], [console.error]. *)
#[warnings="-register-all"]
Inductive value :=
| VStr (s : string)
| VUndefined
| VBool (b : bool)
| VNum (n : nat)
| VErr (e : exn)
| VObj (fields : list (string * value)).

Inductive console_method := Log | Warn | Err.

Inductive intent := Guilds | GuildMessages | MessageContent.

Inductive client_event := EvDebug | EvWarn | EvError | EvClientReady.

Inductive watcher_event := EvReady | EvAdd | EvWatcherError.

(** The options literal of [chokidar.watch]. *)
Record watch_options := WatchOptions {
  ignored : string;
  persistent : bool;
  stabilityThreshold : Z;
  pollInterval : Z
}.

(** [permissions?.has(flag)] for the three flags the script reads. *)
Record permissions := Permissions {
  has_SendMessages : bool;
  has_AttachFiles : bool;
  has_ViewChannel : bool
}.

(** A channel object as [channels.fetch] resolves it: [is_TextChannel] is
    [channel instanceof TextChannel]; [permissionsFor] is what
    [channel.permissionsFor(client.user)] does: it throws ([inl]) or returns
    the permissions or [null] ([inr]). *)
Record channel := Channel {
  channel_id : string;
  name : string;
  is_TextChannel : bool;
  permissionsFor : exn + option permissions
}.

(** One entry of the [files] array of [channel.send]. *)
Record file_entry := FileEntry {
  attachment : string;
  entry_name : string
}.

Inductive effect :=
| DotenvConfig
| Console (m : console_method) (args : list value)
| NewClient (intents : list intent)
| ChokidarWatch (root : option string) (opts : watch_options)
| ClientOn (ev : client_event)
| WatcherOn (ev : watcher_event)
| ClientLogin (token : option string)
| ChannelsFetch (id : option string)
| ExistsSync (p : string)
| ChannelSend (ch : channel) (files : list file_entry).

(** [client.user]: the tag and the id of the logged-in account. *)
Record user := User { tag : string; user_id : string }.

(** The answers of the outside during one listener: the file system, the
    platform's channel lookup (a rejection, or a channel or [null]) and the
    upload (a rejection or success); and what the client knows of itself. *)
Record world := World {
  fs_exists : string -> bool;
  fetch_result : option string -> exn + option channel;
  send_result : channel -> list file_entry -> option exn;
  client_user : option user;
  guilds_cache_size : nat
}.

(** ** Computations: the effects performed, then a return or a throw *)

Inductive completion (A : Type) :=
| Normal (a : A)
| Throw (e : exn).
Arguments Normal {A} a.
Arguments Throw {A} e.

Record js (A : Type) := Js {
  effects : list effect;
  outcome : completion A
}.
Arguments Js {A} effects outcome.
Arguments effects {A} j.
Arguments outcome {A} j.

#[global] Instance js_ret : MRet js := λ A a, Js [] (Normal a).

#[global] Instance js_bind : MBind js := λ A B f m,
  match outcome m with
  | Normal a => Js (effects m ++ effects (f a)) (outcome (f a))
  | Throw e => Js (effects m) (Throw e)
  end.

Definition perform (e : effect) : js unit := Js [e] (Normal tt).

Definition throw {A} (e : exn) : js A := Js [] (Throw e).

(** [try { body } catch (error) { handler }] *)
Definition try_catch {A} (body : js A) (handler : exn → js A) : js A :=
  match outcome body with
  | Normal a => body
  | Throw e => Js (effects body ++ effects (handler e)) (outcome (handler e))
  end.

(** A call that the outside may fail: the effect, then its answer. *)
Definition call {A} (e : effect) (answer : exn + A) : js A :=
  Js [e] (match answer with inl err => Throw err | inr a => Normal a end).

(** ** The script *)

(** [process.env] once [dotenv.config()] has run. *)
Abbreviation environment := (gmap string string).

(** [${x}] for [x : string | undefined] *)
Definition interpolate (x : option string) : string := default "undefined" x.

(** [!x] for [x : string | undefined] *)
Definition falsy (x : option string) : bool :=
  match x with
  | None => true
  | Some s => String.eqb s ""
  end.

Definition opt_value (x : option string) : value :=
  match x with Some s => VStr s | None => VUndefined end.

Definition opt_bool (x : option bool) : value :=
  match x with Some b => VBool b | None => VUndefined end.

Definition DEBUG : bool := true.

Definition debugLog (msg : string) (args : list value) : js unit :=
  if DEBUG then perform (Console Log (VStr ("[DEBUG] " +:+ msg) :: args)) else mret tt.

Definition requiredEnvVars : list string := ["DISCORD_TOKEN"; "CHANNEL_ID"; "WATCH_PATH"].

(** [for (const envVar of vars) { ... }] of lines 21-26. *)
Fixpoint validate (env : environment) (vars : list string) : js unit :=
  match vars with
  | [] => mret tt
  | envVar :: rest =>
    (if falsy (env !! envVar)
     then throw (Error ("Missing required environment variable: " +:+ envVar))
     else mret tt) ;;
    debugLog (envVar +:+ " is set to: " +:+
              (if String.eqb envVar "DISCORD_TOKEN" then "[HIDDEN]" else interpolate (env !! envVar))) [] ;;
    validate env rest
  end.

Definition watch_opts : watch_options :=
  WatchOptions "(^|[\/\\])\.." true 2000 100.

(** The module body, top to bottom; function declarations perform nothing. *)
Definition main (env : environment) : js unit :=
  perform DotenvConfig ;;
  validate env requiredEnvVars ;;
  perform (NewClient [Guilds; GuildMessages; MessageContent]) ;;
  perform (ChokidarWatch (env !! "WATCH_PATH") watch_opts) ;;
  perform (ClientOn EvDebug) ;;
  perform (ClientOn EvWarn) ;;
  perform (ClientOn EvError) ;;
  perform (ClientOn EvClientReady) ;;
  perform (WatcherOn EvWatcherError) ;;
  perform (Console Log [VStr "🔄 Attempting to connect to Discord..."]) ;;
  perform (ClientLogin (env !! "DISCORD_TOKEN")).

(** *** The listeners *)

Section Listeners.

Variable env : environment.

(** [client.on(Events.Debug, ...)], [Events.Warn], [Events.Error] *)
Definition on_client_debug (info : string) : js unit :=
  debugLog "Discord Debug:" [VStr info].

Definition on_client_warn (info : string) : js unit :=
  perform (Console Warn [VStr "Discord Warning:"; VStr info]).

Definition on_client_error (error : exn) : js unit :=
  perform (Console Err [VStr "Discord Error:"; VErr error]).

(** [watcher.on('error', ...)] *)
Definition on_watcher_error (error : exn) : js unit :=
  perform (Console Err [VStr "❌ File watcher error:"; VErr error]) ;;
  debugLog "Watcher error details:" [VErr error].

(** [watcher.on('ready', ...)] *)
Definition on_watcher_ready : js unit :=
  perform (Console Log [VStr "✅ File watcher initialized and ready"]).

(** The [.catch] of [client.login(...)] *)
Definition on_login_rejected (error : exn) : js unit :=
  perform (Console Err [VStr "❌ Failed to connect to Discord:"; VErr error]) ;;
  debugLog "Login error details:" [VErr error].

(** [verifyChannelAccess] runs up to its first [await] when it is called:
    the lookup is issued and the caller goes on. *)
Definition verifyChannelAccess_call : js unit :=
  perform (ChannelsFetch (env !! "CHANNEL_ID")).

(** The rest of [verifyChannelAccess], once the lookup has settled with
    [fetched]; the [try] block starts at the lookup, so a rejection lands in
    its [catch]. *)
Definition verifyChannelAccess_resume (fetched : exn + option channel) : js unit :=
  try_catch
    (channel ← Js [] (match fetched with inl e => Throw e | inr c => Normal c end);
     match channel with
     | None => perform (Console Err [VStr "❌ Channel not found!"])
     | Some channel =>
       if negb (is_TextChannel channel)
       then perform (Console Err [VStr "❌ Channel is not a text channel!"])
       else
         permissions ← Js [] (match permissionsFor channel with
                              | inl e => Throw e | inr p => Normal p end);
         debugLog "Channel permissions:"
           [VObj [("sendMessages", opt_bool (has_SendMessages <$> permissions));
                  ("attachFiles", opt_bool (has_AttachFiles <$> permissions));
                  ("viewChannel", opt_bool (has_ViewChannel <$> permissions))]] ;;
         if negb (default false (has_SendMessages <$> permissions))
            || negb (default false (has_AttachFiles <$> permissions))
         then perform (Console Err [VStr "❌ Bot lacks required permissions in the channel!"])
         else perform (Console Log
                [VStr ("✅ Successfully verified access to channel: " +:+ name channel)])
     end)
    (λ error, perform (Console Err [VStr "❌ Error verifying channel access:"; VErr error])).

Definition setupFileWatcher : js unit :=
  debugLog "Setting up file watcher for path:" [opt_value (env !! "WATCH_PATH")] ;;
  perform (WatcherOn EvReady) ;;
  perform (WatcherOn EvAdd).

(** [client.on(Events.ClientReady, ...)]: [verifyChannelAccess()] is not
    awaited, so [setupFileWatcher()] runs right after the lookup is issued and
    the verification finishes afterwards. *)
Definition on_client_ready (w : world) : js unit :=
  perform (Console Log
    [VStr ("✅ Bot successfully logged in as " +:+ interpolate (tag <$> client_user w))]) ;;
  debugLog "Bot is ready with following details:"
    [VObj [("username", opt_value (tag <$> client_user w));
           ("id", opt_value (user_id <$> client_user w));
           ("guilds", VNum (guilds_cache_size w))]] ;;
  verifyChannelAccess_call ;;
  setupFileWatcher ;;
  verifyChannelAccess_resume (fetch_result w (env !! "CHANNEL_ID")).

(** The test of line 108. *)
Definition is_png (filePath : string) : bool :=
  String.eqb (Path.toLowerCase (Path.extname filePath)) ".png".

(** The [try] block of the ['add'] listener, lines 106-130. *)
Definition on_add_try (w : world) (filePath : string) : js unit :=
  debugLog "File detected:" [VStr filePath] ;;
  if is_png filePath then
    perform (Console Log [VStr ("📁 New PNG file detected: " +:+ filePath)]) ;;
    present ← call (ExistsSync filePath) (inr (fs_exists w filePath));
    if negb present
    then perform (Console Err [VStr ("❌ File " +:+ filePath +:+ " no longer exists")])
    else
      channel ← call (ChannelsFetch (env !! "CHANNEL_ID")) (fetch_result w (env !! "CHANNEL_ID"));
      match channel with
      | None => throw (Error "Invalid channel or channel not found")
      | Some channel =>
        if negb (is_TextChannel channel)
        then throw (Error "Invalid channel or channel not found")
        else
          debugLog "Attempting to send file to Discord..." [] ;;
          let files := [FileEntry filePath (Path.basename filePath)] in
          call (ChannelSend channel files)
               (match send_result w channel files with Some e => inl e | None => inr tt end) ;;
          perform (Console Log [VStr ("✅ Successfully posted " +:+ filePath +:+ " to Discord")])
      end
  else mret tt.

(** [watcher.on('add', async (filePath) => { try {...} catch (error) {...} })] *)
Definition on_add (w : world) (filePath : string) : js unit :=
  try_catch (on_add_try w filePath)
    (λ error,
       perform (Console Err [VStr "❌ Error processing file:"; VErr error]) ;;
       debugLog "Error details:" [VErr error]).

End Listeners.

(** ** The running process

    Node runs the module body, then calls the registered listeners as the
    client and the watcher emit.  The state of the process is what it has
    done so far: an emitter calls one listener per registration found there,
    and the [.catch] of a login is called when that login is rejected.  A
    listener runs from its first statement to its last before the next
    notification is taken: what other listeners do while an [async] listener
    waits at an [await] is not part of a listener's own effects.  An
    exception that leaves a listener is caught by nobody. *)

Inductive notification :=
| LoginRejects (error : exn)
| ClientDebug (info : string)
| ClientWarn (info : string)
| ClientError (error : exn)
| ClientReady (w : world)
| WatcherReady
| WatcherAdd (filePath : string) (w : world)
| WatcherError (error : exn).

Record process := Process {
  history : list effect;
  (** an exception nobody caught: the process has aborted *)
  uncaught : option exn;
  (** whether [ClientReady] has been delivered, that is, the login succeeded *)
  authenticated : bool
}.

Fixpoint count (f : effect → bool) (h : list effect) : nat :=
  match h with
  | [] => O
  | e :: h => if f e then S (count f h) else count f h
  end.

Definition is_ClientOn (ev : client_event) (e : effect) : bool :=
  match e, ev with
  | ClientOn EvDebug, EvDebug | ClientOn EvWarn, EvWarn
  | ClientOn EvError, EvError | ClientOn EvClientReady, EvClientReady => true
  | _, _ => false
  end.

Definition is_WatcherOn (ev : watcher_event) (e : effect) : bool :=
  match e, ev with
  | WatcherOn EvReady, EvReady | WatcherOn EvAdd, EvAdd
  | WatcherOn EvWatcherError, EvWatcherError => true
  | _, _ => false
  end.

Definition is_ClientLogin (e : effect) : bool :=
  match e with ClientLogin _ => true | _ => false end.

Definition is_ChokidarWatch (e : effect) : bool :=
  match e with ChokidarWatch _ _ => true | _ => false end.

Definition is_ChannelsFetch (e : effect) : bool :=
  match e with ChannelsFetch _ => true | _ => false end.

Definition is_ChannelSend (e : effect) : bool :=
  match e with ChannelSend _ _ => true | _ => false end.

Definition is_ExistsSync (e : effect) : bool :=
  match e with ExistsSync _ => true | _ => false end.

Definition is_Console (e : effect) : bool :=
  match e with Console _ _ => true | _ => false end.

(** [emitter.emit]: the listeners registered so far are called in turn. *)
Fixpoint emit (registrations : nat) (listener : js unit) : js unit :=
  match registrations with
  | O => mret tt
  | S n => listener ;; emit n listener
  end.

Definition react (env : environment) (h : list effect) (n : notification) : js unit :=
  match n with
  | LoginRejects error => emit (count is_ClientLogin h) (on_login_rejected error)
  | ClientDebug info => emit (count (is_ClientOn EvDebug) h) (on_client_debug info)
  | ClientWarn info => emit (count (is_ClientOn EvWarn) h) (on_client_warn info)
  | ClientError error => emit (count (is_ClientOn EvError) h) (on_client_error error)
  | ClientReady w => emit (count (is_ClientOn EvClientReady) h) (on_client_ready env w)
  | WatcherReady => emit (count (is_WatcherOn EvReady) h) on_watcher_ready
  | WatcherAdd filePath w => emit (count (is_WatcherOn EvAdd) h) (on_add env w filePath)
  | WatcherError error => emit (count (is_WatcherOn EvWatcherError) h) (on_watcher_error error)
  end.

Definition thrown {A} (c : completion A) : option exn :=
  match c with Normal _ => None | Throw e => Some e end.

Definition is_ClientReady (n : notification) : bool :=
  match n with ClientReady _ => true | _ => false end.

(** The module body has run. *)
Definition start (env : environment) : process :=
  Process (effects (main env)) (thrown (outcome (main env))) false.

(** One notification is delivered; an aborted process receives nothing. *)
Definition deliver (env : environment) (st : process) (n : notification) : process :=
  match uncaught st with
  | Some _ => st
  | None =>
    let r := react env (history st) n in
    Process (history st ++ effects r) (thrown (outcome r))
            (authenticated st || is_ClientReady n)
  end.

Definition run (env : environment) (ns : list notification) : process :=
  fold_left (deliver env) ns (start env).

(** The script never calls [process.exit]: the process is over when an
    exception was not caught, or when nothing holds Node's event loop.  A
    chokidar watcher created with [persistent: true] holds it. *)
Definition holds_open (e : effect) : bool :=
  match e with ChokidarWatch _ opts => persistent opts | _ => false end.

Definition exited (st : process) : bool :=
  match uncaught st with
  | Some _ => true
  | None => negb (existsb holds_open (history st))
  end.

(** Platform and watcher activity, as opposed to console output and the
    reading of the [.env] file. *)
Definition is_network_or_watch (e : effect) : bool :=
  match e with
  | DotenvConfig | Console _ _ => false
  | _ => true
  end.

(** The console output of a history. *)
Definition console (h : list effect) : list effect :=
  List.filter is_Console h.

(** *** Sample data *)

Definition sample_env : environment :=
  <["DISCORD_TOKEN" := "s3cr3t"]> (<["CHANNEL_ID" := "42"]> (<["WATCH_PATH" := "/watch"]> ∅)).

Definition general : channel :=
  Channel "42" "general" true (inr (Some (Permissions true true true))).

(** Every file exists, the channel resolves to [general], uploads succeed. *)
Definition fine : world :=
  World (λ _, true) (λ _, inr (Some general)) (λ _ _, None) (Some (User "relay#0001" "7")) 1.

(** As [fine], but the file is gone. *)
Definition vanished : world :=
  World (λ _, false) (λ _, inr (Some general)) (λ _ _, None) (Some (User "relay#0001" "7")) 1.

(** As [fine], but the channel lookup is rejected. *)
Definition unreachable : world :=
  World (λ _, true) (λ _, inl (Error "Unknown Channel")) (λ _ _, None)
        (Some (User "relay#0001" "7")) 1.

(** The spellings of the extension that differ from [.png] by case only. *)
Definition png_spellings : list string :=
  [".png"; ".pnG"; ".pNg"; ".pNG"; ".Png"; ".PnG"; ".PNg"; ".PNG"].

(** The calls of a history that leave the process: to the file system and
    to the platform. *)
Definition calls (h : list effect) : list effect :=
  List.filter (λ e, is_ExistsSync e || is_ChannelsFetch e || is_ChannelSend e) h.

Definition only_console (h : list effect) : Prop :=
  Forall (λ e, is_Console e = true) h.

(** The process from a state on. *)
Definition continue (env : environment) (st : process) (ns : list notification) : process :=
  fold_left (deliver env) ns st.

(** The number of ['add'] listeners of the watcher. *)
Definition add_listeners (st : process) : nat :=
  count (is_WatcherOn EvAdd) (history st).

(** All three required values are there and not empty. *)
Definition configured (env : environment) : Prop :=
  Forall (λ envVar, falsy (env !! envVar) = false) requiredEnvVars.

(** A history with the argument of [client.login] blanked. *)
Definition redact (e : effect) : effect :=
  match e with
  | ClientLogin _ => ClientLogin None
  | _ => e
  end.

(** How many times [ClientReady] is delivered. *)
Definition ready_deliveries (ns : list notification) : nat :=
  length (List.filter is_ClientReady ns).

(** The debug line of line 25 for one variable. *)
Definition validation_line (env : environment) (envVar : string) : effect :=
  Console Log
    [VStr ("[DEBUG] " +:+ envVar +:+ " is set to: " +:+
           (if String.eqb envVar "DISCORD_TOKEN" then "[HIDDEN]"
            else interpolate (env !! envVar)))].

(** What [verifyChannelAccess] asks of the channel before it reports
    success: lines 73 and 86. *)
Definition passes_verification (c : channel) : bool :=
  is_TextChannel c &&
  match permissionsFor c with
  | inr (Some p) => has_SendMessages p && has_AttachFiles p
  | _ => false
  end.

Definition is_console_error (e : effect) : bool :=
  match e with Console Err _ => true | _ => false end.

(** The two lines that close the handling of a [.png] event. *)
Definition posted_line (filePath : string) : effect :=
  Console Log [VStr ("✅ Successfully posted " +:+ filePath +:+ " to Discord")].

Definition is_WatcherAdd (n : notification) : bool :=
  match n with WatcherAdd _ _ => true | _ => false end.

(** What holds of the variables of the loop of [path.extname] when the
    indices from [n] on have been looked at, before a [break]. *)
Definition scan_inv (path : string) (n : nat) (s : Path.scan) : Prop :=
  Path.startPart s = 0
  ∧ (Path.matchedSlash s = true ↔ Path.end_ s = -1)
  ∧ (Path.end_ s = -1 ∨ Z.of_nat n < Path.end_ s <= Z.of_nat (String.length path))
  ∧ (Path.startDot s = -1 → Path.preDotState s = 0)
  ∧ (Path.startDot s ≠ -1 →
     Z.of_nat n <= Path.startDot s < Path.end_ s
     ∧ String.get (Z.to_nat (Path.startDot s)) path = Some Path.CHAR_DOT)
  ∧ (Path.preDotState s ≠ 0 → Z.of_nat n < Path.startDot s)
  ∧ (∀ j, (n <= j)%nat → Z.of_nat j < Path.end_ s →
          String.get j path ≠ Some Path.CHAR_FORWARD_SLASH).

(** What holds of them when the loop is left. *)
Definition scan_post (path : string) (s : Path.scan) : Prop :=
  0 <= Path.startPart s
  ∧ (Path.end_ s = -1 ∨ Path.startPart s < Path.end_ s <= Z.of_nat (String.length path))
  ∧ (Path.startDot s ≠ -1 →
     Path.startPart s <= Path.startDot s < Path.end_ s
     ∧ String.get (Z.to_nat (Path.startDot s)) path = Some Path.CHAR_DOT)
  ∧ (Path.preDotState s ≠ 0 → Path.startPart s < Path.startDot s)
  ∧ (∀ j, Path.startPart s <= Z.of_nat j < Path.end_ s →
          String.get j path ≠ Some Path.CHAR_FORWARD_SLASH).

(** *** The pattern of the option [ignored], [/(^|[\/\\])\../] (line 39) *)

(** [[\/\\]] *)
Definition is_separator (c : ascii) : bool :=
  Ascii.eqb c "/"%char || Ascii.eqb c "\"%char.

(** Whether [s] starts with a line terminator, the characters that [.] does
    not match: U+000A, U+000D, and U+2028 and U+2029, which are the bytes
    226 128 168 and 226 128 169 in a path. *)
Definition line_terminator_ahead (s : string) : bool :=
  match s with
  | String c rest =>
    Ascii.eqb c "010"%char || Ascii.eqb c "013"%char
    || (Ascii.eqb c (ascii_of_nat 226)
        && match rest with
           | String c1 (String c2 _) =>
             Ascii.eqb c1 (ascii_of_nat 128)
             && (Ascii.eqb c2 (ascii_of_nat 168) || Ascii.eqb c2 (ascii_of_nat 169))
           | _ => false
           end)
  | EmptyString => false
  end.

(** [\..] at the head of [s]: a dot, then one character that is not a line
    terminator. *)
Definition dot_and_one_more (s : string) : bool :=
  match s with
  | String c rest =>
    Ascii.eqb c "."%char && negb (String.eqb rest "") && negb (line_terminator_ahead rest)
  | EmptyString => false
  end.

(** The search of the pattern from every position of [s]; [boundary] says
    whether [(^|[\/\\])] matches right before [s]: [s] is the whole path, or
    the character before it is a separator. *)
Fixpoint ignored_from (boundary : bool) (s : string) : bool :=
  (boundary && dot_and_one_more s)
  || match s with
     | String c rest => ignored_from (is_separator c) rest
     | EmptyString => false
     end.

(** [ignored.test(path)] *)
Definition ignored_test (path : string) : bool := ignored_from true path.

(** A call whose argument is read from the environment with [!] or passed
    as it is got a value that is there and not empty. *)
Definition argument_is_set (e : effect) : bool :=
  match e with
  | ChokidarWatch root _ => negb (falsy root)
  | ClientLogin token => negb (falsy token)
  | ChannelsFetch id => negb (falsy id)
  | _ => true
  end.

(** Whether [needle] occurs somewhere in [text]. *)
Definition occurs_in (needle text : string) : bool :=
  match String.index 0 needle text with
  | Some _ => true
  | None => false
  end.

(** Whether a console call is given a string in which [secret] occurs. *)
Definition shows (secret : string) (e : effect) : bool :=
  match e with
  | Console _ args =>
    existsb (λ v, match v with VStr text => occurs_in secret text | _ => false end) args
  | _ => false
  end.

(** Whether an upload has [filePath] among its attachments. *)
Definition sends_path (filePath : string) (e : effect) : bool :=
  match e with
  | ChannelSend _ files => existsb (λ f, String.eqb (attachment f) filePath) files
  | _ => false
  end.

(** Whether the watcher reports [filePath]. *)
Definition reports_path (filePath : string) (n : notification) : bool :=
  match n with
  | WatcherAdd reported _ => String.eqb reported filePath
  | _ => false
  end.

(** ** The ['add'] listener, case by case *)

Section OnAdd.

Variable env : environment.
Variable w : world.
Variable filePath : string.

Let detected : effect :=
  Console Log [VStr "[DEBUG] File detected:"; VStr filePath].
Let new_png : effect :=
  Console Log [VStr ("📁 New PNG file detected: " +:+ filePath)].
Let lookup : effect := ChannelsFetch (env !! "CHANNEL_ID").
Let attempting : effect :=
  Console Log [VStr "[DEBUG] Attempting to send file to Discord..."].
Let upload (c : channel) : effect :=
  ChannelSend c [FileEntry filePath (Path.basename filePath)].
Let caught (e : exn) : list effect :=
  [Console Err [VStr "❌ Error processing file:"; VErr e];
   Console Log [VStr "[DEBUG] Error details:"; VErr e]].

Lemma on_add_other_extension :
  is_png filePath = false →
  on_add env w filePath = Js [detected] (Normal tt).
Proof.
  intros Hpng. unfold on_add, on_add_try. rewrite Hpng. reflexivity.
Qed.

Lemma on_add_vanished :
  is_png filePath = true → fs_exists w filePath = false →
  on_add env w filePath =
    Js [detected; new_png; ExistsSync filePath;
        Console Err [VStr ("❌ File " +:+ filePath +:+ " no longer exists")]]
       (Normal tt).
Proof.
  intros Hpng Hgone. unfold on_add, on_add_try. rewrite Hpng.
  unfold try_catch, mbind, js_bind, call; simpl. rewrite Hgone. reflexivity.
Qed.

Lemma on_add_lookup_rejected e :
  is_png filePath = true → fs_exists w filePath = true →
  fetch_result w (env !! "CHANNEL_ID") = inl e →
  on_add_try env w filePath =
    Js [detected; new_png; ExistsSync filePath; lookup] (Throw e)
  ∧ on_add env w filePath =
    Js ([detected; new_png; ExistsSync filePath; lookup] ++ caught e) (Normal tt).
Proof.
  intros Hpng Hthere Hfetch. unfold on_add, on_add_try. rewrite Hpng.
  unfold try_catch, mbind, js_bind, call; simpl. rewrite Hthere; simpl.
  rewrite Hfetch. split; reflexivity.
Qed.

Lemma on_add_no_channel :
  is_png filePath = true → fs_exists w filePath = true →
  fetch_result w (env !! "CHANNEL_ID") = inr None →
  on_add_try env w filePath =
    Js [detected; new_png; ExistsSync filePath; lookup]
       (Throw (Error "Invalid channel or channel not found"))
  ∧ on_add env w filePath =
    Js ([detected; new_png; ExistsSync filePath; lookup]
          ++ caught (Error "Invalid channel or channel not found")) (Normal tt).
Proof.
  intros Hpng Hthere Hfetch. unfold on_add, on_add_try. rewrite Hpng.
  unfold try_catch, mbind, js_bind, call; simpl. rewrite Hthere; simpl.
  rewrite Hfetch. split; reflexivity.
Qed.

Lemma on_add_not_text c :
  is_png filePath = true → fs_exists w filePath = true →
  fetch_result w (env !! "CHANNEL_ID") = inr (Some c) → is_TextChannel c = false →
  on_add_try env w filePath =
    Js [detected; new_png; ExistsSync filePath; lookup]
       (Throw (Error "Invalid channel or channel not found"))
  ∧ on_add env w filePath =
    Js ([detected; new_png; ExistsSync filePath; lookup]
          ++ caught (Error "Invalid channel or channel not found")) (Normal tt).
Proof.
  intros Hpng Hthere Hfetch Hkind. unfold on_add, on_add_try. rewrite Hpng.
  unfold try_catch, mbind, js_bind, call; simpl. rewrite Hthere; simpl.
  rewrite Hfetch; simpl. rewrite Hkind. split; reflexivity.
Qed.

Lemma on_add_upload_rejected c e :
  is_png filePath = true → fs_exists w filePath = true →
  fetch_result w (env !! "CHANNEL_ID") = inr (Some c) → is_TextChannel c = true →
  send_result w c [FileEntry filePath (Path.basename filePath)] = Some e →
  on_add_try env w filePath =
    Js [detected; new_png; ExistsSync filePath; lookup; attempting; upload c] (Throw e)
  ∧ on_add env w filePath =
    Js ([detected; new_png; ExistsSync filePath; lookup; attempting; upload c] ++ caught e)
       (Normal tt).
Proof.
  intros Hpng Hthere Hfetch Hkind Hsend. unfold on_add, on_add_try. rewrite Hpng.
  unfold try_catch, mbind, js_bind, call; simpl. rewrite Hthere; simpl.
  rewrite Hfetch; simpl. rewrite Hkind; simpl. rewrite Hsend. split; reflexivity.
Qed.

Lemma on_add_uploaded c :
  is_png filePath = true → fs_exists w filePath = true →
  fetch_result w (env !! "CHANNEL_ID") = inr (Some c) → is_TextChannel c = true →
  send_result w c [FileEntry filePath (Path.basename filePath)] = None →
  on_add env w filePath =
    Js [detected; new_png; ExistsSync filePath; lookup; attempting; upload c;
        Console Log [VStr ("✅ Successfully posted " +:+ filePath +:+ " to Discord")]]
       (Normal tt).
Proof.
  intros Hpng Hthere Hfetch Hkind Hsend. unfold on_add, on_add_try. rewrite Hpng.
  unfold try_catch, mbind, js_bind, call; simpl. rewrite Hthere; simpl.
  rewrite Hfetch; simpl. rewrite Hkind; simpl. rewrite Hsend. reflexivity.
Qed.

End OnAdd.

(** ** [path.extname] and [path.basename] on sample paths *)

Example extname_upper : Path.extname "a.PNG" = ".PNG".
Proof. reflexivity. Qed.

Example extname_bak : Path.extname "/watch/a.png.bak" = ".bak".
Proof. reflexivity. Qed.

Example extname_dotfile : Path.extname "/watch/.png" = "".
Proof. reflexivity. Qed.

Example extname_trailing_slash : Path.extname "/watch/a.png//" = ".png".
Proof. reflexivity. Qed.

Example basename_shot : Path.basename "/watch/out/shot.png" = "shot.png".
Proof. reflexivity. Qed.

(** The case analysis that follows the branches of the listener. *)
Ltac add_cases env w p :=
  let Hpng := fresh "Hpng" in
  let Hthere := fresh "Hthere" in
  let Hfetch := fresh "Hfetch" in
  let Hkind := fresh "Hkind" in
  let Hsend := fresh "Hsend" in
  let ch := fresh "ch" in
  let err := fresh "err" in
  let Htry := fresh "Htry" in
  let Hadd := fresh "Hadd" in
  destruct (is_png p) eqn:Hpng;
  [ destruct (fs_exists w p) eqn:Hthere;
    [ destruct (fetch_result w (env !! "CHANNEL_ID")) as [err|[ch|]] eqn:Hfetch;
      [ destruct (on_add_lookup_rejected env w p _ Hpng Hthere Hfetch) as [Htry Hadd]
      | destruct (is_TextChannel ch) eqn:Hkind;
        [ destruct (send_result w ch [FileEntry p (Path.basename p)]) as [err|] eqn:Hsend;
          [ destruct (on_add_upload_rejected env w p _ _ Hpng Hthere Hfetch Hkind Hsend)
              as [Htry Hadd]
          | pose proof (on_add_uploaded env w p _ Hpng Hthere Hfetch Hkind Hsend) as Hadd ]
        | destruct (on_add_not_text env w p _ Hpng Hthere Hfetch Hkind) as [Htry Hadd] ]
      | destruct (on_add_no_channel env w p Hpng Hthere Hfetch) as [Htry Hadd] ]
    | pose proof (on_add_vanished env w p Hpng Hthere) as Hadd ]
  | pose proof (on_add_other_extension env w p Hpng) as Hadd ];
  try rewrite Hadd.

Lemma on_add_returns env w filePath : outcome (on_add env w filePath) = Normal tt.
Proof. add_cases env w filePath; reflexivity. Qed.

Lemma on_add_registers_nothing env w filePath ev :
  count (is_WatcherOn ev) (effects (on_add env w filePath)) = O
  ∧ count is_ClientLogin (effects (on_add env w filePath)) = O
  ∧ count is_ChokidarWatch (effects (on_add env w filePath)) = O.
Proof. add_cases env w filePath; destruct ev; auto. Qed.

(** *** [toLowerCase] against the literal *)

Lemma lower_char_dot c : Path.lower_char c = "."%char → c = "."%char.
Proof.
  destruct c as [[] [] [] [] [] [] [] []]; vm_compute; intros H;
    first [ reflexivity | discriminate H ].
Qed.

Lemma lower_char_p c : Path.lower_char c = "p"%char → c = "p"%char ∨ c = "P"%char.
Proof.
  destruct c as [[] [] [] [] [] [] [] []]; vm_compute; intros H;
    first [ discriminate H | left; reflexivity | right; reflexivity ].
Qed.

Lemma lower_char_n c : Path.lower_char c = "n"%char → c = "n"%char ∨ c = "N"%char.
Proof.
  destruct c as [[] [] [] [] [] [] [] []]; vm_compute; intros H;
    first [ discriminate H | left; reflexivity | right; reflexivity ].
Qed.

Lemma lower_char_g c : Path.lower_char c = "g"%char → c = "g"%char ∨ c = "G"%char.
Proof.
  destruct c as [[] [] [] [] [] [] [] []]; vm_compute; intros H;
    first [ discriminate H | left; reflexivity | right; reflexivity ].
Qed.

Lemma toLowerCase_png s :
  Path.toLowerCase s = ".png" ↔ In s png_spellings.
Proof.
  split.
  - destruct s as [|c0 [|c1 [|c2 [|c3 [|c4 s]]]]]; simpl; try discriminate.
    intros H. injection H as H0 H1 H2 H3.
    apply lower_char_dot in H0. apply lower_char_p in H1.
    apply lower_char_n in H2. apply lower_char_g in H3. subst c0.
    destruct H1, H2, H3; subst; tauto.
  - intros H. repeat (destruct H as [<-|H]; [reflexivity|]). destruct H.
Qed.

Lemma is_png_spelling filePath :
  is_png filePath = true ↔ In (Path.extname filePath) png_spellings.
Proof.
  unfold is_png. rewrite String.eqb_eq. apply toLowerCase_png.
Qed.

Lemma on_add_png_enters env w filePath :
  is_png filePath = true →
  ∃ rest, effects (on_add env w filePath) =
    Console Log [VStr "[DEBUG] File detected:"; VStr filePath]
    :: Console Log [VStr ("📁 New PNG file detected: " +:+ filePath)]
    :: ExistsSync filePath :: rest.
Proof.
  intros Hp. add_cases env w filePath; try congruence; eexists; reflexivity.
Qed.

(** ** The extension filter *)

(** C1: an added file goes on to the upload if and only if [path.extname] of
    its path, lower-cased, is [.png], that is, the extension is [.png] in some
    mix of cases; [a.PNG] and [a.png] qualify, [a.jpg] and [a.png.bak] do not.
    An event that does not qualify leaves the debug line [File detected:] and
    nothing else; one that qualifies goes on to the existence check, and where
    the file is there and the channel is a text channel the upload is issued. *)
Theorem added_file_relayed_iff_png (env : environment) (w : world) (filePath : string) :
  (is_png filePath = true ↔ In (Path.extname filePath) png_spellings)
  ∧ (is_png filePath = false ↔
     on_add env w filePath =
       Js [Console Log [VStr "[DEBUG] File detected:"; VStr filePath]] (Normal tt))
  ∧ (is_png filePath = true ↔
     ∃ rest, effects (on_add env w filePath) =
       Console Log [VStr "[DEBUG] File detected:"; VStr filePath]
       :: Console Log [VStr ("📁 New PNG file detected: " +:+ filePath)]
       :: ExistsSync filePath :: rest)
  ∧ (∀ c, fs_exists w filePath = true →
          fetch_result w (env !! "CHANNEL_ID") = inr (Some c) →
          is_TextChannel c = true →
          (is_png filePath = true ↔
           In (ChannelSend c [FileEntry filePath (Path.basename filePath)])
              (effects (on_add env w filePath))))
  ∧ is_png "a.PNG" = true ∧ is_png "a.png" = true
  ∧ is_png "a.jpg" = false ∧ is_png "a.png.bak" = false.
Proof.
  split; [apply is_png_spelling|].
  split.
  { split; [apply on_add_other_extension|].
    intros Heq. destruct (is_png filePath) eqn:Hp; [|reflexivity].
    destruct (on_add_png_enters env w filePath Hp) as [rest Hrest].
    rewrite Heq in Hrest. discriminate Hrest. }
  split.
  { split; [apply on_add_png_enters|].
    intros [rest Hrest]. destruct (is_png filePath) eqn:Hp; [reflexivity|].
    rewrite (on_add_other_extension env w filePath Hp) in Hrest. discriminate Hrest. }
  split.
  { intros c Hthere Hfetch Hkind. split.
    - intros Hp. add_cases env w filePath; try congruence;
        match goal with H : inr (Some ?x) = inr (Some c) |- _ =>
          assert (x = c) as -> by congruence end; simpl; tauto.
    - intros Hin. destruct (is_png filePath) eqn:Hp; [reflexivity|].
      rewrite (on_add_other_extension env w filePath Hp) in Hin.
      simpl in Hin. destruct Hin as [Hin|[]]. discriminate Hin. }
  repeat split; reflexivity.
Qed.

Lemma added_file_relayed_iff_png_example :
  is_png "/watch/a.PNG" = true
  ∧ In (ChannelSend general [FileEntry "/watch/a.PNG" "a.PNG"])
       (effects (on_add sample_env fine "/watch/a.PNG"))
  ∧ on_add sample_env fine "/watch/a.png.bak" =
      Js [Console Log [VStr "[DEBUG] File detected:"; VStr "/watch/a.png.bak"]] (Normal tt).
Proof.
  destruct (added_file_relayed_iff_png sample_env fine "/watch/a.PNG")
    as (Hspelling & _ & _ & Hsend & _).
  destruct (added_file_relayed_iff_png sample_env fine "/watch/a.png.bak")
    as (_ & Hother & _).
  assert (Hpng : is_png "/watch/a.PNG" = true).
  { apply Hspelling. vm_compute. tauto. }
  split; [exact Hpng|]. split.
  - apply (Hsend general); reflexivity.
  - apply Hother. reflexivity.
Defined.

(** ** A file that is gone when its event is handled *)

(** C6: for a [.png] event whose file no longer exists, the listener logs the
    error [File ... no longer exists] and returns: the file is looked at once,
    nothing follows the error line, and no upload (and no channel lookup) is
    made for the event. *)
Theorem vanished_file_is_dropped (env : environment) (w : world) (filePath : string) :
  is_png filePath = true → fs_exists w filePath = false →
  on_add env w filePath =
    Js [Console Log [VStr "[DEBUG] File detected:"; VStr filePath];
        Console Log [VStr ("📁 New PNG file detected: " +:+ filePath)];
        ExistsSync filePath;
        Console Err [VStr ("❌ File " +:+ filePath +:+ " no longer exists")]]
       (Normal tt)
  ∧ count is_ChannelSend (effects (on_add env w filePath)) = O
  ∧ count is_ChannelsFetch (effects (on_add env w filePath)) = O
  ∧ count is_ExistsSync (effects (on_add env w filePath)) = 1%nat.
Proof.
  intros Hp Hgone. rewrite (on_add_vanished env w filePath Hp Hgone).
  repeat split; reflexivity.
Qed.

Lemma vanished_file_is_dropped_example :
  on_add sample_env vanished "/watch/shot.png" =
    Js [Console Log [VStr "[DEBUG] File detected:"; VStr "/watch/shot.png"];
        Console Log [VStr "📁 New PNG file detected: /watch/shot.png"];
        ExistsSync "/watch/shot.png";
        Console Err [VStr "❌ File /watch/shot.png no longer exists"]]
       (Normal tt)
  ∧ count is_ChannelSend (effects (on_add sample_env vanished "/watch/shot.png")) = O
  ∧ count is_ChannelsFetch (effects (on_add sample_env vanished "/watch/shot.png")) = O
  ∧ count is_ExistsSync (effects (on_add sample_env vanished "/watch/shot.png")) = 1%nat.
Proof.
  apply (vanished_file_is_dropped sample_env vanished "/watch/shot.png"); reflexivity.
Defined.

(** ** The order of the checks *)

(** C10: the calls that one event makes outside the process are, in this
    order, the existence check, the channel lookup and the upload, each made
    only if the one before went through: none if the extension is not [.png],
    the existence check alone if the file is gone, no upload unless the lookup
    gave a text channel.  So an event with another extension, or whose file
    is gone, makes no call to the platform, neither a lookup nor a send. *)
Theorem checks_run_in_order (env : environment) (w : world) (filePath : string) :
  calls (effects (on_add env w filePath)) =
    (if is_png filePath then
       ExistsSync filePath ::
       (if fs_exists w filePath then
          ChannelsFetch (env !! "CHANNEL_ID") ::
          match fetch_result w (env !! "CHANNEL_ID") with
          | inr (Some c) =>
            if is_TextChannel c
            then [ChannelSend c [FileEntry filePath (Path.basename filePath)]]
            else []
          | _ => []
          end
        else [])
     else [])
  ∧ (is_png filePath = false ∨ fs_exists w filePath = false →
     count is_ChannelsFetch (effects (on_add env w filePath)) = O
     ∧ count is_ChannelSend (effects (on_add env w filePath)) = O).
Proof.
  split.
  - add_cases env w filePath; try rewrite Hkind; reflexivity.
  - intros [Hno|Hno]; add_cases env w filePath; try congruence; split; reflexivity.
Qed.

Lemma checks_run_in_order_example :
  count is_ChannelsFetch (effects (on_add sample_env fine "/watch/notes.txt")) = O
  ∧ count is_ChannelSend (effects (on_add sample_env fine "/watch/notes.txt")) = O.
Proof.
  apply (checks_run_in_order sample_env fine "/watch/notes.txt"). left. reflexivity.
Defined.

(** ** Emitters and listeners *)

Lemma count_app f (h1 h2 : list effect) :
  count f (h1 ++ h2) = (count f h1 + count f h2)%nat.
Proof.
  induction h1 as [|e h1 IH]; simpl; [reflexivity|].
  destruct (f e); rewrite IH; reflexivity.
Qed.

Lemma count_only_console f (h : list effect) :
  (∀ m args, f (Console m args) = false) → only_console h → count f h = O.
Proof.
  intros Hf Hh. induction Hh as [|e h He _ IH]; simpl; [reflexivity|].
  destruct e; try discriminate He. rewrite Hf. exact IH.
Qed.

Lemma emit_returns n (listener : js unit) :
  outcome listener = Normal tt → outcome (emit n listener) = Normal tt.
Proof.
  intros Hl. induction n as [|n IH]; simpl; [reflexivity|].
  unfold mbind, js_bind. rewrite Hl. exact IH.
Qed.

Lemma emit_effects n (listener : js unit) :
  outcome listener = Normal tt →
  effects (emit (S n) listener) = effects listener ++ effects (emit n listener).
Proof. intros Hl. simpl. unfold mbind, js_bind. rewrite Hl. reflexivity. Qed.

Lemma emit_count f n (listener : js unit) :
  outcome listener = Normal tt →
  count f (effects (emit n listener)) = (n * count f (effects listener))%nat.
Proof.
  intros Hl. induction n as [|n IH]; [reflexivity|].
  rewrite emit_effects by exact Hl. rewrite count_app, IH. reflexivity.
Qed.

Lemma verify_resume_console fetched :
  only_console (effects (verifyChannelAccess_resume fetched))
  ∧ outcome (verifyChannelAccess_resume fetched) = Normal tt.
Proof.
  destruct fetched as [e|[[id nm [] [e|[[[] [] []]|]]]|]];
    (split; [repeat constructor | reflexivity]).
Qed.

Lemma on_client_ready_effects env w :
  effects (on_client_ready env w) =
    [Console Log
       [VStr ("✅ Bot successfully logged in as " +:+ interpolate (tag <$> client_user w))];
     Console Log
       [VStr "[DEBUG] Bot is ready with following details:";
        VObj [("username", opt_value (tag <$> client_user w));
              ("id", opt_value (user_id <$> client_user w));
              ("guilds", VNum (guilds_cache_size w))]];
     ChannelsFetch (env !! "CHANNEL_ID");
     Console Log [VStr "[DEBUG] Setting up file watcher for path:";
                  opt_value (env !! "WATCH_PATH")];
     WatcherOn EvReady;
     WatcherOn EvAdd]
    ++ effects (verifyChannelAccess_resume (fetch_result w (env !! "CHANNEL_ID")))
  ∧ outcome (on_client_ready env w) = Normal tt.
Proof.
  split.
  - reflexivity.
  - unfold on_client_ready, mbind, js_bind. simpl.
    apply verify_resume_console.
Qed.

Lemma on_add_quiet env w filePath ev :
  count (is_ClientOn ev) (effects (on_add env w filePath)) = O.
Proof. add_cases env w filePath; destruct ev; reflexivity. Qed.

Lemma react_returns env h n : outcome (react env h n) = Normal tt.
Proof.
  destruct n; simpl; apply emit_returns;
    first [ reflexivity | apply on_client_ready_effects | apply on_add_returns ].
Qed.

(** No listener creates a watcher, logs in, or registers a listener on the
    client. *)
Lemma react_quiet env h n :
  count is_ChokidarWatch (effects (react env h n)) = O
  ∧ count is_ClientLogin (effects (react env h n)) = O
  ∧ ∀ ev, count (is_ClientOn ev) (effects (react env h n)) = O.
Proof.
  assert (Hready : ∀ f w, (∀ m args, f (Console m args) = false) →
            f (ChannelsFetch (env !! "CHANNEL_ID")) = false →
            f (WatcherOn EvReady) = false → f (WatcherOn EvAdd) = false →
            count f (effects (on_client_ready env w)) = O).
  { intros f w Hc Hf Hr Ha.
    destruct (on_client_ready_effects env w) as [-> _].
    rewrite count_app. simpl. rewrite !Hc, Hf, Hr, Ha. simpl.
    apply count_only_console; [exact Hc | apply verify_resume_console]. }
  assert (Hmul : ∀ k, (k * 0)%nat = O) by (intros; lia).
  destruct n; simpl;
    (repeat split; [| | intros ev];
     rewrite emit_count
       by first [ reflexivity | apply on_client_ready_effects | apply on_add_returns ]);
    first [ rewrite Hready by (try destruct ev; reflexivity); apply Hmul
          | rewrite (proj1 (proj2 (on_add_registers_nothing env w filePath EvAdd))); apply Hmul
          | rewrite (proj2 (proj2 (on_add_registers_nothing env w filePath EvAdd))); apply Hmul
          | rewrite on_add_quiet; apply Hmul
          | destruct ev; apply Hmul
          | apply Hmul ].
Qed.

(** Only the [ClientReady] listener registers ['add'] listeners: one per call. *)
Lemma react_add_listeners env h n :
  count (is_WatcherOn EvAdd) (effects (react env h n)) =
    if is_ClientReady n then count (is_ClientOn EvClientReady) h else O.
Proof.
  destruct n; simpl;
    rewrite emit_count
      by first [ reflexivity | apply on_client_ready_effects | apply on_add_returns ];
    try (simpl; lia).
  - destruct (on_client_ready_effects env w) as [-> _].
    rewrite count_app. simpl.
    rewrite (count_only_console (is_WatcherOn EvAdd)); [lia| reflexivity |].
    apply verify_resume_console.
  - rewrite (proj1 (on_add_registers_nothing env w filePath EvAdd)). lia.
Qed.

Lemma deliver_running env st n :
  uncaught st = None →
  deliver env st n =
    Process (history st ++ effects (react env (history st) n)) None
            (authenticated st || is_ClientReady n).
Proof.
  intros Hrun. unfold deliver. rewrite Hrun, react_returns. reflexivity.
Qed.

(** What no notification changes: the process stays up, the numbers of
    watchers, of logins and of listeners on the client stay as they are, and
    what was done stays done. *)
Lemma continue_keeps env ns : ∀ st,
  uncaught st = None →
  uncaught (continue env st ns) = None
  ∧ count is_ChokidarWatch (history (continue env st ns)) = count is_ChokidarWatch (history st)
  ∧ count is_ClientLogin (history (continue env st ns)) = count is_ClientLogin (history st)
  ∧ (∀ ev, count (is_ClientOn ev) (history (continue env st ns)) =
           count (is_ClientOn ev) (history st))
  ∧ (∃ more, history (continue env st ns) = history st ++ more).
Proof.
  induction ns as [|n ns IH]; intros st Hrun; simpl.
  - repeat split; try reflexivity; [exact Hrun|]. exists (@nil effect). rewrite app_nil_r. reflexivity.
  - rewrite (deliver_running env st n Hrun).
    destruct (react_quiet env (history st) n) as (Hw & Hl & Hc).
    destruct (IH (Process (history st ++ effects (react env (history st) n)) None
                    (authenticated st || is_ClientReady n)) eq_refl)
      as (H1 & H2 & H3 & H4 & more & H5).
    simpl in H2, H3, H4, H5.
    rewrite count_app in H2, H3. rewrite Hw in H2. rewrite Hl in H3.
    repeat split.
    + exact H1.
    + rewrite H2. lia.
    + rewrite H3. lia.
    + intros ev. rewrite H4, count_app, Hc. lia.
    + eexists. rewrite H5, <- app_assoc. reflexivity.
Qed.

Lemma continue_aborted env ns : ∀ st e,
  uncaught st = Some e → continue env st ns = st.
Proof.
  induction ns as [|n ns IH]; intros st e Hdead; simpl; [reflexivity|].
  assert (deliver env st n = st) as -> by (unfold deliver; rewrite Hdead; reflexivity).
  apply (IH st e Hdead).
Qed.

(** ['add'] listeners exist only once [ClientReady] has been delivered. *)
Lemma continue_listeners_need_ready env ns : ∀ st,
  uncaught st = None →
  (authenticated st = false → add_listeners st = O) →
  authenticated (continue env st ns) = false →
  add_listeners (continue env st ns) = O.
Proof.
  induction ns as [|n ns IH]; intros st Hrun Hinv; simpl; [exact Hinv|].
  rewrite (deliver_running env st n Hrun).
  apply IH; [reflexivity|]. simpl. intros Hauth.
  apply orb_false_iff in Hauth as [Hauth Hn].
  unfold add_listeners in *. simpl.
  rewrite count_app, react_add_listeners, Hn, (Hinv Hauth). reflexivity.
Qed.

(** Once [ClientReady] has been delivered to a process that listens for it,
    there is an ['add'] listener. *)
Lemma continue_ready_listens env ns : ∀ st,
  uncaught st = None →
  (1 <= count (is_ClientOn EvClientReady) (history st))%nat →
  (authenticated st = true → (1 <= add_listeners st)%nat) →
  authenticated (continue env st ns) = true →
  (1 <= add_listeners (continue env st ns))%nat.
Proof.
  induction ns as [|n ns IH]; intros st Hrun Hon Hinv; simpl; [exact Hinv|].
  rewrite (deliver_running env st n Hrun).
  destruct (react_quiet env (history st) n) as (_ & _ & Hc).
  apply IH; [reflexivity| |]; simpl.
  - rewrite count_app, Hc. lia.
  - intros Hauth. unfold add_listeners in *. simpl.
    rewrite count_app, react_add_listeners.
    destruct (authenticated st); [specialize (Hinv eq_refl); lia|].
    simpl in Hauth. rewrite Hauth. lia.
Qed.

(** *** The module body *)

Lemma configured_lookups env :
  configured env ↔
  falsy (env !! "DISCORD_TOKEN") = false
  ∧ falsy (env !! "CHANNEL_ID") = false
  ∧ falsy (env !! "WATCH_PATH") = false.
Proof.
  unfold configured, requiredEnvVars. rewrite !Forall_cons, Forall_nil. tauto.
Qed.

Lemma validate_configured env :
  configured env →
  validate env requiredEnvVars =
    Js [Console Log [VStr "[DEBUG] DISCORD_TOKEN is set to: [HIDDEN]"];
        Console Log [VStr ("[DEBUG] CHANNEL_ID is set to: " +:+ interpolate (env !! "CHANNEL_ID"))];
        Console Log [VStr ("[DEBUG] WATCH_PATH is set to: " +:+ interpolate (env !! "WATCH_PATH"))]]
       (Normal tt).
Proof.
  intros (Ht & Hc & Hp)%configured_lookups.
  unfold requiredEnvVars. cbn [validate].
  remember (env !! "DISCORD_TOKEN") as t. remember (env !! "CHANNEL_ID") as c.
  remember (env !! "WATCH_PATH") as p.
  rewrite Ht, Hc, Hp. reflexivity.
Qed.

Lemma main_configured env :
  configured env →
  main env =
    Js ([DotenvConfig] ++ effects (validate env requiredEnvVars) ++
        [NewClient [Guilds; GuildMessages; MessageContent];
         ChokidarWatch (env !! "WATCH_PATH") watch_opts;
         ClientOn EvDebug; ClientOn EvWarn; ClientOn EvError; ClientOn EvClientReady;
         WatcherOn EvWatcherError;
         Console Log [VStr "🔄 Attempting to connect to Discord..."];
         ClientLogin (env !! "DISCORD_TOKEN")])
       (Normal tt).
Proof.
  intros Hcfg. unfold main. rewrite (validate_configured env Hcfg).
  remember (env !! "DISCORD_TOKEN") as t. remember (env !! "CHANNEL_ID") as c.
  remember (env !! "WATCH_PATH") as p. reflexivity.
Qed.

Lemma start_configured env :
  configured env →
  uncaught (start env) = None
  ∧ authenticated (start env) = false
  ∧ add_listeners (start env) = O
  ∧ count is_ChokidarWatch (history (start env)) = 1%nat
  ∧ count is_ClientLogin (history (start env)) = 1%nat
  ∧ count (is_ClientOn EvClientReady) (history (start env)) = 1%nat
  ∧ existsb holds_open (history (start env)) = true.
Proof.
  intros Hcfg. unfold start, add_listeners.
  rewrite (main_configured env Hcfg), (validate_configured env Hcfg).
  remember (env !! "DISCORD_TOKEN") as t. remember (env !! "CHANNEL_ID") as c.
  remember (env !! "WATCH_PATH") as p. repeat split; reflexivity.
Qed.

Lemma main_not_configured env :
  ¬ configured env →
  ∃ missing logged,
    In missing requiredEnvVars ∧ falsy (env !! missing) = true
    ∧ only_console logged
    ∧ main env =
        Js (DotenvConfig :: logged)
           (Throw (Error ("Missing required environment variable: " +:+ missing))).
Proof.
  intros Hnot. rewrite configured_lookups in Hnot.
  unfold main, requiredEnvVars. cbn [validate].
  destruct (falsy (env !! "DISCORD_TOKEN")) eqn:Ht.
  { exists "DISCORD_TOKEN", []. simpl. rewrite Ht.
    repeat split; [tauto | constructor]. }
  destruct (falsy (env !! "CHANNEL_ID")) eqn:Hc.
  { exists "CHANNEL_ID", [Console Log [VStr "[DEBUG] DISCORD_TOKEN is set to: [HIDDEN]"]].
    simpl. rewrite Hc. repeat split; [tauto | repeat constructor]. }
  destruct (falsy (env !! "WATCH_PATH")) eqn:Hp; [|tauto].
  exists "WATCH_PATH",
    [Console Log [VStr "[DEBUG] DISCORD_TOKEN is set to: [HIDDEN]"];
     Console Log [VStr ("[DEBUG] CHANNEL_ID is set to: " +:+ interpolate (env !! "CHANNEL_ID"))]].
  simpl. rewrite Hp. repeat split; [tauto | repeat constructor].
Qed.

(** ** Start-up validation *)

(** C2: if one of [DISCORD_TOKEN], [CHANNEL_ID], [WATCH_PATH] is missing or
    empty, the module body throws [Missing required environment variable:]
    followed by the name of a missing variable; nobody catches it, so the
    process aborts.  Up to there it has read the [.env] file and written
    debug lines, and nothing else: no client, no watcher, no login, no
    lookup; and nothing is delivered to it afterwards. *)
Theorem missing_value_aborts_startup (env : environment) (envVar : string) :
  In envVar requiredEnvVars → falsy (env !! envVar) = true →
  ∃ missing,
    In missing requiredEnvVars ∧ falsy (env !! missing) = true
    ∧ outcome (main env) =
        Throw (Error ("Missing required environment variable: " +:+ missing))
    ∧ uncaught (start env) =
        Some (Error ("Missing required environment variable: " +:+ missing))
    ∧ count is_network_or_watch (effects (main env)) = O
    ∧ exited (start env) = true
    ∧ ∀ ns, run env ns = start env.
Proof.
  intros Hin Hfalsy.
  assert (Hnot : ¬ configured env).
  { intros Hcfg. unfold configured in Hcfg. rewrite List.Forall_forall in Hcfg.
    rewrite (Hcfg envVar Hin) in Hfalsy. discriminate Hfalsy. }
  destruct (main_not_configured env Hnot) as (missing & logged & Hm & Hf & Hlog & Hmain).
  exists missing. unfold run, start, exited. rewrite Hmain. simpl.
  repeat split; try assumption.
  - apply count_only_console; [reflexivity | exact Hlog].
  - intros ns. eapply continue_aborted. reflexivity.
Qed.

Lemma missing_value_aborts_startup_example :
  ∃ missing,
    In missing requiredEnvVars
    ∧ falsy (delete "CHANNEL_ID" sample_env !! missing) = true
    ∧ outcome (main (delete "CHANNEL_ID" sample_env)) =
        Throw (Error ("Missing required environment variable: " +:+ missing))
    ∧ uncaught (start (delete "CHANNEL_ID" sample_env)) =
        Some (Error ("Missing required environment variable: " +:+ missing))
    ∧ count is_network_or_watch (effects (main (delete "CHANNEL_ID" sample_env))) = O
    ∧ exited (start (delete "CHANNEL_ID" sample_env)) = true
    ∧ ∀ ns, run (delete "CHANNEL_ID" sample_env) ns = start (delete "CHANNEL_ID" sample_env).
Proof.
  apply (missing_value_aborts_startup (delete "CHANNEL_ID" sample_env) "CHANNEL_ID").
  - simpl. tauto.
  - vm_compute. reflexivity.
Defined.

(** ** Start-up order *)

Lemma run_keeps env ns :
  configured env →
  uncaught (run env ns) = None
  ∧ count is_ChokidarWatch (history (run env ns)) = 1%nat
  ∧ count is_ClientLogin (history (run env ns)) = 1%nat
  ∧ existsb holds_open (history (run env ns)) = true
  ∧ (authenticated (run env ns) = false → add_listeners (run env ns) = O)
  ∧ (authenticated (run env ns) = true → (1 <= add_listeners (run env ns))%nat).
Proof.
  intros Hcfg.
  destruct (start_configured env Hcfg) as (Hrun & Hauth & Hadd & Hw & Hl & Hon & Hopen).
  destruct (continue_keeps env ns (start env) Hrun) as (H1 & H2 & H3 & _ & more & H5).
  change (continue env (start env) ns) with (run env ns) in *.
  repeat split.
  - exact H1.
  - rewrite H2. exact Hw.
  - rewrite H3. exact Hl.
  - rewrite H5, existsb_app, Hopen. reflexivity.
  - apply (continue_listeners_need_ready env ns (start env)); [exact Hrun | intros _; exact Hadd].
  - apply (continue_ready_listens env ns (start env)); [exact Hrun | lia | congruence].
Qed.

Lemma deliver_unheard env st filePath w :
  uncaught st = None → add_listeners st = O →
  deliver env st (WatcherAdd filePath w) = st.
Proof.
  intros Hrun Hnone. rewrite (deliver_running env st _ Hrun). simpl.
  unfold add_listeners in Hnone. rewrite Hnone. simpl.
  destruct st as [h u a]. simpl in *. subst u.
  rewrite app_nil_r, orb_false_r. reflexivity.
Qed.

(** C3, as the script has it: the watcher is created once, by the module body
    after validation and before [client.login] is called, so before and
    whether or not the login succeeds; what waits for the login is the
    ['add'] listener, which the [ClientReady] listener registers: while
    [ClientReady] has not been delivered there is no such listener and an
    ['add'] event of the watcher changes nothing, and once it has been
    delivered there is one. *)
Theorem watcher_created_once_at_startup (env : environment) (ns : list notification) :
  configured env →
  count is_ChokidarWatch (history (run env ns)) = 1%nat
  ∧ (∃ before after,
       effects (main env) =
         before ++ ChokidarWatch (env !! "WATCH_PATH") watch_opts :: after
       ∧ count is_ClientLogin before = O
       ∧ count is_ChokidarWatch before = O
       ∧ count is_ClientLogin after = 1%nat)
  ∧ (authenticated (run env ns) = false →
     add_listeners (run env ns) = O
     ∧ ∀ filePath w, deliver env (run env ns) (WatcherAdd filePath w) = run env ns)
  ∧ (authenticated (run env ns) = true → (1 <= add_listeners (run env ns))%nat).
Proof.
  intros Hcfg.
  destruct (run_keeps env ns Hcfg) as (Hrun & Hw & _ & _ & Hno & Hyes).
  split; [exact Hw|]. split.
  { rewrite (main_configured env Hcfg), (validate_configured env Hcfg).
    eexists (_ :: _ :: _ :: _ :: _ :: nil), _. simpl.
    repeat split; reflexivity. }
  split; [|exact Hyes].
  intros Hauth. split; [exact (Hno Hauth)|].
  intros filePath w. apply deliver_unheard; [exact Hrun | exact (Hno Hauth)].
Qed.

Lemma watcher_created_once_at_startup_example :
  count is_ChokidarWatch
    (history (run sample_env [ClientReady fine; WatcherAdd "/watch/shot.png" fine])) = 1%nat.
Proof.
  apply (watcher_created_once_at_startup sample_env
           [ClientReady fine; WatcherAdd "/watch/shot.png" fine]).
  apply configured_lookups. repeat split; vm_compute; reflexivity.
Defined.

(** C3 as stated fails: here the login is rejected, so authentication never
    succeeds, and the watcher has been created all the same. *)
Lemma watcher_exists_without_authentication :
  ¬ (count is_ChokidarWatch
       (history (run sample_env [LoginRejects (Error "An invalid token was provided.")])) ≠ O
     → authenticated (run sample_env [LoginRejects (Error "An invalid token was provided.")])
       = true).
Proof.
  intros H. assert (Hfalse : false = true) by (apply H; vm_compute; discriminate).
  discriminate Hfalse.
Qed.

(** ** A rejected login *)

(** C4, as the script has it: a rejected login is logged, with an error line
    and a debug line that carry the error, and [client.login] is not called
    again, whatever happens afterwards.  The process does not exit: nothing
    was thrown, the script has no exit call, and the persistent watcher
    created before the login holds the process open. *)
Theorem login_failure_logged_no_retry (env : environment) (error : exn)
    (ns : list notification) :
  configured env →
  history (run env [LoginRejects error]) =
    effects (main env) ++
    [Console Err [VStr "❌ Failed to connect to Discord:"; VErr error];
     Console Log [VStr "[DEBUG] Login error details:"; VErr error]]
  ∧ count is_ClientLogin (history (run env (LoginRejects error :: ns))) = 1%nat
  ∧ uncaught (run env (LoginRejects error :: ns)) = None
  ∧ exited (run env (LoginRejects error :: ns)) = false.
Proof.
  intros Hcfg.
  destruct (start_configured env Hcfg) as (Hrun & _ & _ & _ & Hl & _ & _).
  destruct (run_keeps env (LoginRejects error :: ns) Hcfg) as (H1 & _ & H3 & H4 & _).
  split.
  - change (run env [LoginRejects error])
      with (deliver env (start env) (LoginRejects error)).
    rewrite (deliver_running env _ _ Hrun). cbn [history react].
    rewrite Hl. reflexivity.
  - split; [exact H3|]. split; [exact H1|].
    unfold exited. rewrite H1, H4. reflexivity.
Qed.

Lemma login_failure_logged_no_retry_example :
  count is_ClientLogin
    (history (run sample_env [LoginRejects (Error "An invalid token was provided.");
                              WatcherReady])) = 1%nat.
Proof.
  apply (login_failure_logged_no_retry sample_env
           (Error "An invalid token was provided.") [WatcherReady]).
  apply configured_lookups. repeat split; vm_compute; reflexivity.
Defined.

(** C4 as stated fails: after a rejected login the process has not exited. *)
Lemma login_failure_does_not_exit :
  ¬ (exited (run sample_env [LoginRejects (Error "An invalid token was provided.")]) = true).
Proof. vm_compute. discriminate. Qed.

Lemma continue_add_listeners env ns : ∀ st,
  uncaught st = None →
  add_listeners (continue env st ns) =
    (add_listeners st
     + ready_deliveries ns * count (is_ClientOn EvClientReady) (history st))%nat.
Proof.
  induction ns as [|n ns IH]; intros st Hrun; simpl.
  - unfold ready_deliveries. simpl. lia.
  - rewrite (deliver_running env st n Hrun).
    destruct (react_quiet env (history st) n) as (_ & _ & Hc).
    rewrite IH by reflexivity. unfold add_listeners, ready_deliveries. simpl.
    rewrite !count_app, Hc, react_add_listeners.
    destruct (is_ClientReady n); simpl; lia.
Qed.

(** One ['add'] listener per delivery of [ClientReady]. *)
Lemma run_listens_once_per_ready env ns :
  configured env →
  count (is_WatcherOn EvAdd) (history (run env ns)) = ready_deliveries ns.
Proof.
  intros Hcfg.
  destruct (start_configured env Hcfg) as (Hrun & _ & Hadd & _ & _ & Hon & _).
  pose proof (continue_add_listeners env ns (start env) Hrun) as H.
  change (continue env (start env) ns) with (run env ns) in H.
  unfold add_listeners in *. rewrite H, Hadd, Hon. lia.
Qed.

(** ** The upload *)

(** C8: a [.png] event whose file exists and whose channel lookup gives a
    text channel issues exactly one upload, whether the platform then accepts
    it or not: [send] on the channel just fetched, with one file whose
    attachment is the event's path and whose name is [path.basename] of it
    ([shot.png] for [/watch/out/shot.png]).  In a process to which
    [ClientReady] has been delivered once, the watcher has one ['add']
    listener, so that delivering the event makes exactly one upload. *)
Theorem one_upload_per_event (env : environment) (w : world) (filePath : string)
    (c : channel) :
  is_png filePath = true → fs_exists w filePath = true →
  fetch_result w (env !! "CHANNEL_ID") = inr (Some c) → is_TextChannel c = true →
  List.filter is_ChannelSend (effects (on_add env w filePath)) =
    [ChannelSend c [FileEntry filePath (Path.basename filePath)]]
  ∧ count is_ChannelSend (effects (on_add env w filePath)) = 1%nat
  ∧ Path.basename "/watch/out/shot.png" = "shot.png"
  ∧ (∀ ns, configured env → ready_deliveries ns = 1%nat →
       List.filter is_ChannelSend
         (effects (react env (history (run env ns)) (WatcherAdd filePath w))) =
         [ChannelSend c [FileEntry filePath (Path.basename filePath)]]).
Proof.
  intros Hp Hthere Hfetch Hkind.
  assert (Hone : List.filter is_ChannelSend (effects (on_add env w filePath)) =
                 [ChannelSend c [FileEntry filePath (Path.basename filePath)]]).
  { add_cases env w filePath; try congruence;
      match goal with H : inr (Some ?x) = inr (Some c) |- _ =>
        assert (x = c) as -> by congruence end; reflexivity. }
  split; [exact Hone|]. split.
  { add_cases env w filePath; try congruence; reflexivity. }
  split; [reflexivity|].
  intros ns Hcfg Hready. cbn [react].
  rewrite (run_listens_once_per_ready env ns Hcfg), Hready. simpl.
  unfold mbind, js_bind. rewrite on_add_returns. simpl.
  rewrite app_nil_r. exact Hone.
Qed.

Lemma one_upload_per_event_example :
  List.filter is_ChannelSend (effects (on_add sample_env fine "/watch/shot.png")) =
    [ChannelSend general [FileEntry "/watch/shot.png" "shot.png"]]
  ∧ List.filter is_ChannelSend
      (effects (react sample_env (history (run sample_env [ClientReady unreachable]))
                  (WatcherAdd "/watch/shot.png" fine))) =
    [ChannelSend general [FileEntry "/watch/shot.png" "shot.png"]].
Proof.
  destruct (one_upload_per_event sample_env fine "/watch/shot.png" general)
    as (Hone & _ & _ & Hrun); try reflexivity.
  split; [exact Hone|].
  apply (Hrun [ClientReady unreachable]).
  - apply configured_lookups. repeat split; vm_compute; reflexivity.
  - reflexivity.
Defined.

(** ** Failures while an event is handled *)

Lemma on_add_sends env w filePath c :
  is_png filePath = true → fs_exists w filePath = true →
  fetch_result w (env !! "CHANNEL_ID") = inr (Some c) → is_TextChannel c = true →
  In (ChannelSend c [FileEntry filePath (Path.basename filePath)])
     (effects (on_add env w filePath)).
Proof.
  intros Hp Hthere Hfetch Hkind.
  add_cases env w filePath; try congruence;
    match goal with H : inr (Some ?x) = inr (Some c) |- _ =>
      assert (x = c) as -> by congruence end; simpl; tauto.
Qed.

(** C5: whatever is thrown while one event is handled (a rejected lookup, no
    channel or not a text channel, a rejected upload) is caught by the
    listener's own [catch] and becomes an error line and a debug line; the
    listener returns.  So delivering an ['add'] event never aborts the
    process and leaves the listeners as they were, and an event that follows
    and whose file and channel are fine is uploaded. *)
Theorem event_failures_stay_in_the_listener (env : environment) (ns : list notification)
    (w : world) (filePath : string) :
  configured env →
  outcome (on_add env w filePath) = Normal tt
  ∧ (∀ e, outcome (on_add_try env w filePath) = Throw e →
       effects (on_add env w filePath) =
         effects (on_add_try env w filePath) ++
         [Console Err [VStr "❌ Error processing file:"; VErr e];
          Console Log [VStr "[DEBUG] Error details:"; VErr e]])
  ∧ uncaught (deliver env (run env ns) (WatcherAdd filePath w)) = None
  ∧ add_listeners (deliver env (run env ns) (WatcherAdd filePath w))
    = add_listeners (run env ns)
  ∧ authenticated (deliver env (run env ns) (WatcherAdd filePath w))
    = authenticated (run env ns)
  ∧ (∀ w' filePath' c,
       authenticated (run env ns) = true →
       is_png filePath' = true → fs_exists w' filePath' = true →
       fetch_result w' (env !! "CHANNEL_ID") = inr (Some c) → is_TextChannel c = true →
       In (ChannelSend c [FileEntry filePath' (Path.basename filePath')])
          (effects (react env (history (deliver env (run env ns) (WatcherAdd filePath w)))
                      (WatcherAdd filePath' w')))
       ∧ history (deliver env (deliver env (run env ns) (WatcherAdd filePath w))
                    (WatcherAdd filePath' w'))
         = history (deliver env (run env ns) (WatcherAdd filePath w)) ++
           effects (react env (history (deliver env (run env ns) (WatcherAdd filePath w)))
                      (WatcherAdd filePath' w'))).
Proof.
  intros Hcfg.
  destruct (run_keeps env ns Hcfg) as (Hrun & _ & _ & _ & _ & Hyes).
  pose proof (deliver_running env (run env ns) (WatcherAdd filePath w) Hrun) as Hst'.
  assert (Hsame : add_listeners (deliver env (run env ns) (WatcherAdd filePath w))
                  = add_listeners (run env ns)).
  { rewrite Hst'. unfold add_listeners. simpl.
    rewrite count_app, emit_count by apply on_add_returns.
    rewrite (proj1 (on_add_registers_nothing env w filePath EvAdd)). lia. }
  split; [apply on_add_returns|]. split.
  { intros e He. unfold on_add, try_catch. rewrite He. reflexivity. }
  split; [rewrite Hst'; reflexivity|]. split; [exact Hsame|]. split.
  { rewrite Hst'. simpl. apply orb_false_r. }
  intros w' filePath' c Hauth Hp Hthere Hfetch Hkind. split.
  - simpl. fold (add_listeners (deliver env (run env ns) (WatcherAdd filePath w))).
    rewrite Hsame. specialize (Hyes Hauth).
    destruct (add_listeners (run env ns)) as [|k]; [lia|].
    rewrite emit_effects by apply on_add_returns.
    apply in_or_app. left. apply on_add_sends; assumption.
  - rewrite (deliver_running env (deliver env (run env ns) (WatcherAdd filePath w))).
    + reflexivity.
    + rewrite Hst'. reflexivity.
Qed.

Lemma event_failures_stay_in_the_listener_example :
  uncaught (deliver sample_env (run sample_env [ClientReady fine])
              (WatcherAdd "/watch/shot.png" unreachable)) = None
  ∧ In (ChannelSend general [FileEntry "/watch/next.png" "next.png"])
       (effects (react sample_env
                   (history (deliver sample_env (run sample_env [ClientReady fine])
                               (WatcherAdd "/watch/shot.png" unreachable)))
                   (WatcherAdd "/watch/next.png" fine))).
Proof.
  destruct (event_failures_stay_in_the_listener sample_env [ClientReady fine] unreachable
              "/watch/shot.png") as (_ & _ & Hup & _ & _ & Hnext).
  - apply configured_lookups. repeat split; vm_compute; reflexivity.
  - split; [exact Hup|].
    apply (Hnext fine "/watch/next.png" general); reflexivity.
Defined.

(** ** The destination channel: verified at start-up, looked up per event *)

Lemma on_add_looks_up env w filePath :
  is_png filePath = true → fs_exists w filePath = true →
  count is_ChannelsFetch (effects (on_add env w filePath)) = 1%nat.
Proof.
  intros Hp Hthere. add_cases env w filePath; try congruence; reflexivity.
Qed.

(** C7: the [ClientReady] listener sets the watcher up whatever the
    verification of the channel finds: the set-up runs as soon as the lookup
    is issued, the verification itself only writes to the console and never
    throws, and the listener registers its one ['add'] listener in every
    case.  Each [.png] event whose file exists issues its own lookup of
    [CHANNEL_ID], one per registered listener and whatever was looked up
    before, and uses what this lookup gives: a rejection is thrown on, no
    channel or a channel that is not a text channel throws
    [Invalid channel or channel not found], and in these cases nothing is
    sent; a text channel is sent to. *)
Theorem verification_advisory_lookup_per_event (env : environment) (w : world) :
  (effects (on_client_ready env w) =
     [Console Log
        [VStr ("✅ Bot successfully logged in as " +:+ interpolate (tag <$> client_user w))];
      Console Log
        [VStr "[DEBUG] Bot is ready with following details:";
         VObj [("username", opt_value (tag <$> client_user w));
               ("id", opt_value (user_id <$> client_user w));
               ("guilds", VNum (guilds_cache_size w))]];
      ChannelsFetch (env !! "CHANNEL_ID")]
     ++ effects (setupFileWatcher env)
     ++ effects (verifyChannelAccess_resume (fetch_result w (env !! "CHANNEL_ID"))))
  ∧ outcome (on_client_ready env w) = Normal tt
  ∧ count (is_WatcherOn EvAdd) (effects (on_client_ready env w)) = 1%nat
  ∧ only_console (effects (verifyChannelAccess_resume (fetch_result w (env !! "CHANNEL_ID"))))
  ∧ outcome (verifyChannelAccess_resume (fetch_result w (env !! "CHANNEL_ID"))) = Normal tt
  ∧ (∀ filePath,
       is_png filePath = true → fs_exists w filePath = true →
       count is_ChannelsFetch (effects (on_add env w filePath)) = 1%nat
       ∧ In (ChannelsFetch (env !! "CHANNEL_ID")) (effects (on_add env w filePath))
       ∧ match fetch_result w (env !! "CHANNEL_ID") with
         | inl e =>
           outcome (on_add_try env w filePath) = Throw e
           ∧ count is_ChannelSend (effects (on_add env w filePath)) = O
         | inr None =>
           outcome (on_add_try env w filePath)
             = Throw (Error "Invalid channel or channel not found")
           ∧ count is_ChannelSend (effects (on_add env w filePath)) = O
         | inr (Some c) =>
           if is_TextChannel c
           then In (ChannelSend c [FileEntry filePath (Path.basename filePath)])
                   (effects (on_add env w filePath))
           else outcome (on_add_try env w filePath)
                  = Throw (Error "Invalid channel or channel not found")
                ∧ count is_ChannelSend (effects (on_add env w filePath)) = O
         end)
  ∧ (∀ ns filePath,
       configured env → is_png filePath = true → fs_exists w filePath = true →
       count is_ChannelsFetch (history (deliver env (run env ns) (WatcherAdd filePath w)))
       = (count is_ChannelsFetch (history (run env ns)) + add_listeners (run env ns))%nat).
Proof.
  destruct (on_client_ready_effects env w) as [Heff Hout].
  destruct (verify_resume_console (fetch_result w (env !! "CHANNEL_ID"))) as [Hcons Hret].
  split; [exact Heff|]. split; [exact Hout|]. split.
  { rewrite Heff, count_app. simpl.
    rewrite (count_only_console (is_WatcherOn EvAdd)); [reflexivity|reflexivity|exact Hcons]. }
  split; [exact Hcons|]. split; [exact Hret|]. split.
  - intros filePath Hp Hthere.
    split; [apply on_add_looks_up; assumption|].
    add_cases env w filePath; try congruence; try rewrite Hkind;
      try rewrite Htry; simpl; tauto.
  - intros ns filePath Hcfg Hp Hthere.
    destruct (run_keeps env ns Hcfg) as (Hrun & _).
    rewrite (deliver_running env _ _ Hrun). simpl.
    rewrite count_app, emit_count by apply on_add_returns.
    rewrite (on_add_looks_up env w filePath Hp Hthere).
    unfold add_listeners. lia.
Qed.

Lemma verification_advisory_lookup_per_event_example :
  count (is_WatcherOn EvAdd) (effects (on_client_ready sample_env unreachable)) = 1%nat
  ∧ count is_ChannelsFetch
      (history (deliver sample_env
                  (run sample_env [ClientReady fine; WatcherAdd "/watch/a.png" fine])
                  (WatcherAdd "/watch/b.png" fine)))
    = (count is_ChannelsFetch
         (history (run sample_env [ClientReady fine; WatcherAdd "/watch/a.png" fine]))
       + add_listeners (run sample_env [ClientReady fine; WatcherAdd "/watch/a.png" fine]))%nat.
Proof.
  split.
  - apply (verification_advisory_lookup_per_event sample_env unreachable).
  - destruct (verification_advisory_lookup_per_event sample_env fine)
      as (_ & _ & _ & _ & _ & _ & Hfresh).
    apply (Hfresh [ClientReady fine; WatcherAdd "/watch/a.png" fine] "/watch/b.png").
    + apply configured_lookups. repeat split; vm_compute; reflexivity.
    + reflexivity.
    + reflexivity.
Defined.

(** ** The credential and the console *)

Lemma count_redact f (h : list effect) :
  (∀ e, f (redact e) = f e) → count f (map redact h) = count f h.
Proof.
  intros Hf. induction h as [|e h IH]; simpl; [reflexivity|].
  rewrite Hf, IH. reflexivity.
Qed.

Lemma console_redact (h : list effect) : console (map redact h) = console h.
Proof.
  unfold console. induction h as [|e h IH]; simpl; [reflexivity|].
  destruct e; simpl; rewrite IH; reflexivity.
Qed.

Lemma falsy_nonempty (s : string) : s ≠ "" → falsy (Some s) = false.
Proof. intros Hs. simpl. apply String.eqb_neq. exact Hs. Qed.

(** The listeners read [CHANNEL_ID] and [WATCH_PATH] and nothing else. *)
Lemma react_reads_target env1 env2 h1 h2 n :
  env1 !! "CHANNEL_ID" = env2 !! "CHANNEL_ID" →
  env1 !! "WATCH_PATH" = env2 !! "WATCH_PATH" →
  map redact h1 = map redact h2 →
  react env1 h1 n = react env2 h2 n.
Proof.
  intros Hc Hp Hh.
  assert (Hcount : ∀ f, (∀ e, f (redact e) = f e) → count f h1 = count f h2).
  { intros f Hf. rewrite <- (count_redact f h1 Hf), <- (count_redact f h2 Hf), Hh.
    reflexivity. }
  assert (Hl : count is_ClientLogin h1 = count is_ClientLogin h2)
    by (apply Hcount; intros []; reflexivity).
  assert (Hon : ∀ ev, count (is_ClientOn ev) h1 = count (is_ClientOn ev) h2)
    by (intros ev; apply Hcount; intros []; reflexivity).
  assert (Hwon : ∀ ev, count (is_WatcherOn ev) h1 = count (is_WatcherOn ev) h2)
    by (intros ev; apply Hcount; intros []; reflexivity).
  destruct n; simpl; rewrite ?Hl, ?Hon, ?Hwon; try reflexivity.
  - unfold on_client_ready, verifyChannelAccess_call, setupFileWatcher.
    rewrite Hc, Hp. reflexivity.
  - unfold on_add, on_add_try. rewrite Hc. reflexivity.
Qed.

Lemma continue_reads_target env1 env2 ns : ∀ st1 st2,
  env1 !! "CHANNEL_ID" = env2 !! "CHANNEL_ID" →
  env1 !! "WATCH_PATH" = env2 !! "WATCH_PATH" →
  map redact (history st1) = map redact (history st2) →
  uncaught st1 = uncaught st2 →
  map redact (history (continue env1 st1 ns)) = map redact (history (continue env2 st2 ns)).
Proof.
  induction ns as [|n ns IH]; intros st1 st2 Hc Hp Hh Hu; simpl; [exact Hh|].
  apply IH; try assumption.
  - unfold deliver. rewrite <- Hu. destruct (uncaught st1); [exact Hh|]. simpl.
    rewrite !map_app, Hh, (react_reads_target env1 env2 _ _ n Hc Hp Hh). reflexivity.
  - unfold deliver. rewrite <- Hu. destruct (uncaught st1) eqn:Hu1; [congruence|]. simpl.
    rewrite (react_reads_target env1 env2 _ _ n Hc Hp Hh). reflexivity.
Qed.

Lemma validate_hides_token (env : environment) (t1 t2 : string) :
  t1 ≠ "" → t2 ≠ "" →
  validate (<["DISCORD_TOKEN" := t1]> env) requiredEnvVars
  = validate (<["DISCORD_TOKEN" := t2]> env) requiredEnvVars.
Proof.
  intros H1 H2. unfold requiredEnvVars. cbn [validate].
  rewrite !lookup_insert_eq, !lookup_insert_ne by discriminate.
  rewrite (falsy_nonempty t1 H1), (falsy_nonempty t2 H2). reflexivity.
Qed.

(** * Further properties of the script *)

(** ** The validation loop on any list of variables *)

(** X1: the loop of lines 21-26 stops at the first variable that is missing
    or empty: it has then written the debug line of each variable before it,
    in order, and throws the error that names it; the variables after it are
    not looked at.  When no variable is missing it writes one line per
    variable and returns. *)
Theorem validate_stops_at_first_missing (env : environment)
    (before : list string) (missing : string) (after : list string) :
  Forall (λ envVar, falsy (env !! envVar) = false) before →
  falsy (env !! missing) = true →
  validate env (before ++ missing :: after) =
    Js (map (validation_line env) before)
       (Throw (Error ("Missing required environment variable: " +:+ missing)))
  ∧ validate env before = Js (map (validation_line env) before) (Normal tt).
Proof.
  intros Hbefore Hmissing.
  induction Hbefore as [|envVar before Hvar _ [IHthrow IHret]].
  - split; [|reflexivity]. cbn [app validate]. rewrite Hmissing. reflexivity.
  - cbn [app validate map]. rewrite Hvar, IHthrow, IHret. split; reflexivity.
Qed.

Lemma validate_stops_at_first_missing_example :
  validate (delete "CHANNEL_ID" sample_env) requiredEnvVars =
    Js [Console Log [VStr "[DEBUG] DISCORD_TOKEN is set to: [HIDDEN]"]]
       (Throw (Error "Missing required environment variable: CHANNEL_ID")).
Proof.
  apply (validate_stops_at_first_missing (delete "CHANNEL_ID" sample_env)
           ["DISCORD_TOKEN"] "CHANNEL_ID" ["WATCH_PATH"]).
  - repeat constructor.
  - vm_compute. reflexivity.
Defined.

(** ** What the verification reports *)

(** X2: [verifyChannelAccess] writes its success line, with the name of
    the channel, exactly when the lookup gave a text channel on which the
    account may send messages and attach files; the permission to view the
    channel is logged and not asked for.  In every other case (a rejected
    lookup, no channel, another kind of channel, [permissionsFor] throwing or
    returning [null], a permission lacking) it writes exactly one error
    line, and none on success. *)
Theorem verification_success_iff_permitted (fetched : exn + option channel) :
  (∀ nm,
     In (Console Log [VStr ("✅ Successfully verified access to channel: " +:+ nm)])
        (effects (verifyChannelAccess_resume fetched))
     ↔ ∃ c, fetched = inr (Some c) ∧ passes_verification c = true ∧ name c = nm)
  ∧ count is_console_error (effects (verifyChannelAccess_resume fetched)) =
      (if match fetched with inr (Some c) => passes_verification c | _ => false end
       then O else 1%nat).
Proof.
  split.
  - intros nm. split.
    + destruct fetched as [e|[[id nm' [] [e|[[[] [] view]|]]]|]]; simpl;
        intros Hin; repeat (destruct Hin as [Hin|Hin]; try discriminate Hin);
        try contradiction.
      injection Hin as Hnm.
      eexists. split; [reflexivity|]. split; [reflexivity|]. exact Hnm.
    + intros (c & -> & Hpass & <-).
      destruct c as [id nm' [] [e|[[[] [] view]|]]]; try discriminate Hpass.
      simpl. right. left. reflexivity.
  - destruct fetched as [e|[[id nm' [] [e|[[[] [] view]|]]]|]]; reflexivity.
Qed.

Lemma verification_success_iff_permitted_example :
  In (Console Log [VStr "✅ Successfully verified access to channel: general"])
     (effects (verifyChannelAccess_resume (fetch_result fine (Some "42")))).
Proof.
  apply (proj1 (verification_success_iff_permitted (fetch_result fine (Some "42")))
           "general").
  exists general. repeat split; reflexivity.
Defined.

(** ** The verdict of an event *)

(** X3: the listener writes [Successfully posted <path> to Discord] exactly
    when the path is a [.png], the file exists, the lookup gave a text
    channel and the platform accepted the upload.  A [.png] event ends in
    exactly one verdict on the console: that line and no error line, or one
    error line and not that line; an event with another extension writes no
    error line. *)
Theorem posted_line_iff_upload_accepted (env : environment) (w : world)
    (filePath : string) :
  (In (posted_line filePath) (effects (on_add env w filePath))
   ↔ is_png filePath = true ∧ fs_exists w filePath = true
     ∧ ∃ c, fetch_result w (env !! "CHANNEL_ID") = inr (Some c)
            ∧ is_TextChannel c = true
            ∧ send_result w c [FileEntry filePath (Path.basename filePath)] = None)
  ∧ (is_png filePath = true →
     (In (posted_line filePath) (effects (on_add env w filePath))
      ∧ count is_console_error (effects (on_add env w filePath)) = O)
     ∨ (¬ In (posted_line filePath) (effects (on_add env w filePath))
        ∧ count is_console_error (effects (on_add env w filePath)) = 1%nat))
  ∧ (is_png filePath = false →
     count is_console_error (effects (on_add env w filePath)) = O).
Proof.
  assert (Hnot : ∀ l, Forall (λ e, e ≠ posted_line filePath) l →
                      ¬ In (posted_line filePath) l).
  { intros l Hl Hin. rewrite List.Forall_forall in Hl. exact (Hl _ Hin eq_refl). }
  unfold posted_line in *.
  split; [split; [intros Hin | intros (Hp & Hthere & c & Hfetch & Hkind & Hsend)]
         | split; intros Hp].
  - add_cases env w filePath;
      match goal with H : on_add _ _ _ = _ |- _ => rewrite H in Hin; simpl in Hin end;
      repeat (destruct Hin as [Hin|Hin]; try discriminate Hin); try contradiction.
    split; [reflexivity|]. split; [reflexivity|].
    eexists. split; [reflexivity|]. split; assumption.
  - add_cases env w filePath; try congruence. simpl. tauto.
  - add_cases env w filePath; try congruence;
      first [ right; split; [apply Hnot; repeat constructor; discriminate | reflexivity]
            | left; split; [simpl; tauto | reflexivity] ].
  - add_cases env w filePath; try congruence; reflexivity.
Qed.

Lemma posted_line_iff_upload_accepted_example :
  In (posted_line "/watch/shot.png") (effects (on_add sample_env fine "/watch/shot.png"))
  ∧ count is_console_error (effects (on_add sample_env unreachable "/watch/shot.png"))
    = 1%nat.
Proof.
  destruct (posted_line_iff_upload_accepted sample_env fine "/watch/shot.png")
    as (Hposted & _).
  destruct (posted_line_iff_upload_accepted sample_env unreachable "/watch/shot.png")
    as (_ & Hverdict & _).
  split.
  - apply Hposted. split; [reflexivity|]. split; [reflexivity|].
    exists general. repeat split; reflexivity.
  - destruct (Hverdict eq_refl) as [[Hin _]|[_ Hone]]; [|exact Hone].
    vm_compute in Hin. repeat (destruct Hin as [Hin|Hin]; try discriminate Hin).
    destruct Hin.
Defined.

(** ** Listeners over a run *)

Lemma react_watcher_listeners env h n ev :
  count (is_WatcherOn ev) (effects (react env h n)) =
    if is_ClientReady n
    then match ev with
         | EvWatcherError => O
         | _ => count (is_ClientOn EvClientReady) h
         end
    else O.
Proof.
  destruct n; simpl;
    rewrite emit_count
      by first [ reflexivity | apply on_client_ready_effects | apply on_add_returns ];
    try (destruct ev; simpl; lia).
  - destruct (on_client_ready_effects env w) as [-> _].
    rewrite count_app.
    rewrite (count_only_console (is_WatcherOn ev) (effects (verifyChannelAccess_resume _)));
      [destruct ev; simpl; lia | destruct ev; reflexivity | apply verify_resume_console].
  - rewrite (proj1 (on_add_registers_nothing env w filePath ev)). lia.
Qed.

Lemma continue_watcher_listeners env ns ev : ∀ st,
  uncaught st = None →
  count (is_WatcherOn ev) (history (continue env st ns)) =
    (count (is_WatcherOn ev) (history st)
     + match ev with
       | EvWatcherError => O
       | _ => ready_deliveries ns * count (is_ClientOn EvClientReady) (history st)
       end)%nat.
Proof.
  induction ns as [|n ns IH]; intros st Hrun; simpl.
  - unfold ready_deliveries. destruct ev; simpl; lia.
  - rewrite (deliver_running env st n Hrun).
    destruct (react_quiet env (history st) n) as (_ & _ & Hc).
    rewrite IH by reflexivity. unfold ready_deliveries. simpl.
    rewrite !count_app, Hc, react_watcher_listeners.
    destruct (is_ClientReady n), ev; simpl; lia.
Qed.

(** The listeners of a run: one of each on the client and one for the
    watcher's errors, from the module body; one ['ready'] and one ['add']
    listener per [ClientReady] delivered. *)
Lemma run_listeners env ns :
  configured env →
  uncaught (run env ns) = None
  ∧ (∀ ev, count (is_ClientOn ev) (history (run env ns)) = 1%nat)
  ∧ count (is_WatcherOn EvWatcherError) (history (run env ns)) = 1%nat
  ∧ count (is_WatcherOn EvReady) (history (run env ns)) = ready_deliveries ns
  ∧ count (is_WatcherOn EvAdd) (history (run env ns)) = ready_deliveries ns.
Proof.
  intros Hcfg.
  destruct (start_configured env Hcfg) as (Hrun & _ & _ & _ & _ & Hon & _).
  destruct (continue_keeps env ns (start env) Hrun) as (H1 & _ & _ & H4 & _).
  pose proof (λ ev, continue_watcher_listeners env ns ev (start env) Hrun) as Hw.
  change (continue env (start env) ns) with (run env ns) in *.
  assert (Hstart : (∀ ev, count (is_ClientOn ev) (history (start env)) = 1%nat)
                   ∧ ∀ ev, count (is_WatcherOn ev) (history (start env)) =
                           match ev with EvWatcherError => 1%nat | _ => O end).
  { unfold start.
    rewrite (main_configured env Hcfg), (validate_configured env Hcfg).
    generalize (env !! "DISCORD_TOKEN"), (env !! "CHANNEL_ID"), (env !! "WATCH_PATH").
    intros t c p. split; intros ev; destruct ev; reflexivity. }
  destruct Hstart as [Hclient Hwatcher].
  split; [exact H1|]. split.
  { intros ev. rewrite H4. apply Hclient. }
  repeat split.
  - rewrite (Hw EvWatcherError), (Hwatcher EvWatcherError). lia.
  - rewrite (Hw EvReady), (Hwatcher EvReady), (Hclient EvClientReady). lia.
  - rewrite (Hw EvAdd), (Hwatcher EvAdd), (Hclient EvClientReady). lia.
Qed.

Lemma ready_deliveries_app ns1 ns2 :
  ready_deliveries (ns1 ++ ns2) = (ready_deliveries ns1 + ready_deliveries ns2)%nat.
Proof.
  unfold ready_deliveries. rewrite List.filter_app, length_app. reflexivity.
Qed.

Lemma emit_one (listener : js unit) :
  outcome listener = Normal tt → effects (emit 1 listener) = effects listener.
Proof.
  intros Hl. rewrite emit_effects by exact Hl. simpl. apply app_nil_r.
Qed.

(** ** Diagnostics of the client and of the watcher *)

(** X4: in a process that started, a debug, warning or error notification of
    the client and an error of the watcher are logged once each, at any
    time: before the login has completed as well as after, and however often
    [ClientReady] was delivered.  The debug notification gives a
    [[DEBUG] Discord Debug:] line, the warning a [console.warn] line, the two
    errors a [console.error] line, and the watcher's error a debug line in
    addition. *)
Theorem diagnostics_are_logged_once (env : environment) (ns : list notification)
    (info : string) (error : exn) :
  configured env →
  history (deliver env (run env ns) (ClientDebug info)) =
    history (run env ns) ++ [Console Log [VStr "[DEBUG] Discord Debug:"; VStr info]]
  ∧ history (deliver env (run env ns) (ClientWarn info)) =
    history (run env ns) ++ [Console Warn [VStr "Discord Warning:"; VStr info]]
  ∧ history (deliver env (run env ns) (ClientError error)) =
    history (run env ns) ++ [Console Err [VStr "Discord Error:"; VErr error]]
  ∧ history (deliver env (run env ns) (WatcherError error)) =
    history (run env ns) ++
    [Console Err [VStr "❌ File watcher error:"; VErr error];
     Console Log [VStr "[DEBUG] Watcher error details:"; VErr error]].
Proof.
  intros Hcfg.
  destruct (run_listeners env ns Hcfg) as (Hrun & Hon & Herr & _).
  repeat split; rewrite (deliver_running env _ _ Hrun); cbn [history react];
    rewrite ?Hon, ?Herr, emit_one by reflexivity; reflexivity.
Qed.

Lemma diagnostics_are_logged_once_example :
  history (deliver sample_env (run sample_env []) (WatcherError (Error "EACCES"))) =
    history (run sample_env []) ++
    [Console Err [VStr "❌ File watcher error:"; VErr (Error "EACCES")];
     Console Log [VStr "[DEBUG] Watcher error details:"; VErr (Error "EACCES")]].
Proof.
  apply (diagnostics_are_logged_once sample_env [] "" (Error "EACCES")).
  apply configured_lookups. repeat split; vm_compute; reflexivity.
Defined.

(** ** More than one [ClientReady] *)

(** X5: the [ClientReady] listener is registered with [on] and sets the
    watcher up each time it runs, so that each delivery of [ClientReady] adds
    one ['ready'] and one ['add'] listener.  After [k] deliveries the
    watcher's ready event writes its line [k] times, and one ['add'] event of
    a [.png] file that exists, with a text channel, makes [k] lookups and [k]
    uploads. *)
Theorem one_upload_per_ready_delivery (env : environment) (ns : list notification)
    (w : world) (filePath : string) (c : channel) :
  configured env →
  is_png filePath = true → fs_exists w filePath = true →
  fetch_result w (env !! "CHANNEL_ID") = inr (Some c) → is_TextChannel c = true →
  count is_ChannelSend (effects (react env (history (run env ns)) (WatcherAdd filePath w)))
    = ready_deliveries ns
  ∧ count is_ChannelsFetch
      (effects (react env (history (run env ns)) (WatcherAdd filePath w)))
    = ready_deliveries ns
  ∧ count is_Console (effects (react env (history (run env ns)) WatcherReady))
    = ready_deliveries ns.
Proof.
  intros Hcfg Hp Hthere Hfetch Hkind.
  destruct (run_listeners env ns Hcfg) as (_ & _ & _ & Hready & Hadd).
  cbn [react]. rewrite Hready, Hadd.
  rewrite !emit_count by first [reflexivity | apply on_add_returns].
  rewrite (on_add_looks_up env w filePath Hp Hthere).
  assert (Hone : count is_ChannelSend (effects (on_add env w filePath)) = 1%nat).
  { add_cases env w filePath; try congruence; reflexivity. }
  rewrite Hone. simpl. lia.
Qed.

Lemma one_upload_per_ready_delivery_example :
  count is_ChannelSend
    (effects (react sample_env (history (run sample_env [ClientReady fine; ClientReady fine]))
                (WatcherAdd "/watch/shot.png" fine))) = 2%nat.
Proof.
  apply (one_upload_per_ready_delivery sample_env [ClientReady fine; ClientReady fine]
           fine "/watch/shot.png" general).
  - apply configured_lookups. repeat split; vm_compute; reflexivity.
  - reflexivity.
  - reflexivity.
  - reflexivity.
  - reflexivity.
Defined.

(** ** No memory of earlier events *)

(** X6: what the process does for an ['add'] event depends on the event, on
    what the outside answers and on how often [ClientReady] was delivered,
    and on nothing else that came before: not on the files already handled,
    not on earlier failures.  In particular a path that is notified twice is
    handled twice, in the same way. *)
Theorem handling_ignores_earlier_events (env : environment)
    (ns more : list notification) (w : world) (filePath : string) :
  configured env → ready_deliveries more = O →
  react env (history (run env (ns ++ more))) (WatcherAdd filePath w)
  = react env (history (run env ns)) (WatcherAdd filePath w)
  ∧ history (deliver env (deliver env (run env ns) (WatcherAdd filePath w))
               (WatcherAdd filePath w))
    = history (run env ns)
      ++ effects (react env (history (run env ns)) (WatcherAdd filePath w))
      ++ effects (react env (history (run env ns)) (WatcherAdd filePath w)).
Proof.
  intros Hcfg Hmore.
  assert (Hsame : ∀ extra, ready_deliveries extra = O →
            react env (history (run env (ns ++ extra))) (WatcherAdd filePath w)
            = react env (history (run env ns)) (WatcherAdd filePath w)).
  { intros extra Hextra. cbn [react].
    rewrite (proj2 (proj2 (proj2 (proj2 (run_listeners env (ns ++ extra) Hcfg))))).
    rewrite (proj2 (proj2 (proj2 (proj2 (run_listeners env ns Hcfg))))).
    rewrite ready_deliveries_app, Hextra, Nat.add_0_r. reflexivity. }
  split; [exact (Hsame more Hmore)|].
  pose proof (Hsame [WatcherAdd filePath w] eq_refl) as Hagain.
  assert (Hstep : run env (ns ++ [WatcherAdd filePath w])
                  = deliver env (run env ns) (WatcherAdd filePath w)).
  { unfold run. rewrite fold_left_app. reflexivity. }
  rewrite Hstep in Hagain.
  destruct (run_listeners env ns Hcfg) as (Hrun & _).
  destruct (run_listeners env (ns ++ [WatcherAdd filePath w]) Hcfg) as (Hrun' & _).
  rewrite Hstep in Hrun'.
  rewrite (deliver_running env _ _ Hrun'). cbn [history].
  rewrite Hagain. rewrite (deliver_running env _ _ Hrun). cbn [history].
  rewrite <- app_assoc. reflexivity.
Qed.

Lemma handling_ignores_earlier_events_example :
  react sample_env
    (history (run sample_env ([ClientReady fine] ++ [WatcherAdd "/watch/a.png" unreachable])))
    (WatcherAdd "/watch/a.png" fine)
  = react sample_env (history (run sample_env [ClientReady fine]))
      (WatcherAdd "/watch/a.png" fine).
Proof.
  apply (handling_ignores_earlier_events sample_env [ClientReady fine]
           [WatcherAdd "/watch/a.png" unreachable] fine "/watch/a.png").
  - apply configured_lookups. repeat split; vm_compute; reflexivity.
  - reflexivity.
Defined.

(** ** Events of the watcher that come before [ClientReady] *)

(** Only the ['add'] listener uploads. *)
Lemma react_sends env h n :
  is_WatcherAdd n = false → count is_ChannelSend (effects (react env h n)) = O.
Proof.
  intros Hn. destruct n; try discriminate Hn; simpl;
    rewrite emit_count by first [reflexivity | apply on_client_ready_effects];
    try (simpl; lia).
  destruct (on_client_ready_effects env w) as [-> _].
  rewrite count_app, (count_only_console is_ChannelSend (effects (verifyChannelAccess_resume _)));
    [simpl; lia | reflexivity | apply verify_resume_console].
Qed.

Lemma continue_without_add env later : ∀ st,
  uncaught st = None →
  Forall (λ n, is_WatcherAdd n = false) later →
  count is_ChannelSend (history (continue env st later))
  = count is_ChannelSend (history st).
Proof.
  induction later as [|n later IH]; intros st Hrun Hlater; simpl; [reflexivity|].
  apply Forall_cons in Hlater as [Hn Hlater].
  rewrite (deliver_running env st n Hrun).
  rewrite IH by (try reflexivity; exact Hlater). simpl.
  rewrite count_app, (react_sends env _ n Hn). lia.
Qed.

Lemma continue_before_ready env ns : ∀ st,
  uncaught st = None → add_listeners st = O → ready_deliveries ns = O →
  count is_ChannelSend (history (continue env st ns))
  = count is_ChannelSend (history st).
Proof.
  induction ns as [|n ns IH]; intros st Hrun Hnone Hready; simpl; [reflexivity|].
  assert (is_ClientReady n = false ∧ ready_deliveries ns = O) as [Hn Hns].
  { unfold ready_deliveries in *. simpl in Hready.
    destruct (is_ClientReady n); [discriminate Hready|]. split; [reflexivity|exact Hready]. }
  rewrite (deliver_running env st n Hrun).
  rewrite IH; [|reflexivity| |exact Hns].
  - simpl. rewrite count_app.
    destruct (is_WatcherAdd n) eqn:Hadd.
    + destruct n; try discriminate Hadd. simpl.
      unfold add_listeners in Hnone. rewrite Hnone. simpl. lia.
    + rewrite (react_sends env _ n Hadd). lia.
  - unfold add_listeners in *. simpl.
    rewrite count_app, react_add_listeners, Hn, Hnone. reflexivity.
Qed.

(** An upload carries the path of the event it is made for, and no other. *)
Lemma on_add_sends_its_path env w reported filePath :
  String.eqb reported filePath = false →
  count (sends_path filePath) (effects (on_add env w reported)) = O.
Proof.
  intros Hne. add_cases env w reported; simpl; rewrite ?Hne; reflexivity.
Qed.

Lemma react_sends_path env h n filePath :
  reports_path filePath n = false →
  count (sends_path filePath) (effects (react env h n)) = O.
Proof.
  intros Hn. destruct n; simpl in Hn; cbn [react];
    rewrite emit_count
      by first [reflexivity | apply on_client_ready_effects | apply on_add_returns];
    try (simpl; lia).
  - destruct (on_client_ready_effects env w) as [-> _].
    rewrite count_app,
      (count_only_console (sends_path filePath) (effects (verifyChannelAccess_resume _)));
      [simpl; lia | reflexivity | apply verify_resume_console].
  - rewrite (on_add_sends_its_path env w _ _ Hn). lia.
Qed.

Lemma continue_without_report env filePath later : ∀ st,
  uncaught st = None →
  Forall (λ n, reports_path filePath n = false) later →
  count (sends_path filePath) (history (continue env st later))
  = count (sends_path filePath) (history st).
Proof.
  induction later as [|n later IH]; intros st Hrun Hlater; simpl; [reflexivity|].
  apply Forall_cons in Hlater as [Hn Hlater].
  rewrite (deliver_running env st n Hrun).
  rewrite IH by (try reflexivity; exact Hlater). simpl.
  rewrite count_app, (react_sends_path env _ n _ Hn). lia.
Qed.

Lemma no_send_no_path (filePath : string) (h : list effect) :
  count is_ChannelSend h = O → count (sends_path filePath) h = O.
Proof.
  induction h as [|e h IH]; simpl; [reflexivity|].
  destruct e; simpl; try exact IH. discriminate.
Qed.

(** X7: while [ClientReady] has not been delivered the watcher has neither a
    ['ready'] nor an ['add'] listener: its ready event and every file it
    reports leave no trace, the line [File watcher initialized and ready] is
    not written, and nothing is kept of the file.  A file reported then is
    not uploaded later either, whatever follows ([ClientReady], other files
    that are reported and uploaded, errors), unless the watcher reports this
    path again: no upload of the run has it as attachment.  If no file at
    all is reported afterwards, the run has no upload. *)
Theorem events_before_ready_are_lost (env : environment) (ns later : list notification)
    (w : world) (filePath : string) :
  configured env → ready_deliveries ns = O →
  Forall (λ n, reports_path filePath n = false) later →
  deliver env (run env ns) WatcherReady = run env ns
  ∧ deliver env (run env ns) (WatcherAdd filePath w) = run env ns
  ∧ count (sends_path filePath)
      (history (run env (ns ++ WatcherAdd filePath w :: later))) = O
  ∧ (Forall (λ n, is_WatcherAdd n = false) later →
     count is_ChannelSend (history (run env (ns ++ WatcherAdd filePath w :: later))) = O).
Proof.
  intros Hcfg Hready Hlater.
  destruct (run_listeners env ns Hcfg) as (Hrun & _ & _ & Hr & Ha).
  rewrite Hready in Hr, Ha.
  assert (Hlost : deliver env (run env ns) (WatcherAdd filePath w) = run env ns)
    by (apply deliver_unheard; assumption).
  assert (Hnone : count is_ChannelSend (history (run env ns)) = O).
  { destruct (start_configured env Hcfg) as (Hstart & _ & Hadd0 & _).
    change (run env ns) with (continue env (start env) ns).
    rewrite (continue_before_ready env ns _ Hstart Hadd0 Hready).
    unfold start. rewrite (main_configured env Hcfg), (validate_configured env Hcfg).
    generalize (env !! "DISCORD_TOKEN"), (env !! "CHANNEL_ID"), (env !! "WATCH_PATH").
    reflexivity. }
  assert (Hsplit : run env (ns ++ WatcherAdd filePath w :: later)
                   = continue env (run env ns) later).
  { unfold run, continue. rewrite fold_left_app. simpl.
    change (fold_left (deliver env) ns (start env)) with (run env ns).
    rewrite Hlost. reflexivity. }
  split; [|split; [exact Hlost|split]].
  - rewrite (deliver_running env _ _ Hrun). simpl. rewrite Hr. simpl.
    destruct (run env ns) as [h u a]. simpl in *. subst u.
    rewrite app_nil_r, orb_false_r. reflexivity.
  - rewrite Hsplit, (continue_without_report env filePath later _ Hrun Hlater).
    apply no_send_no_path, Hnone.
  - intros Hnoadd.
    rewrite Hsplit, (continue_without_add env later _ Hrun Hnoadd). exact Hnone.
Qed.

Lemma events_before_ready_are_lost_example :
  count (sends_path "/watch/shot.png")
    (history (run sample_env
                ([ClientDebug "Preparing to connect"]
                 ++ WatcherAdd "/watch/shot.png" fine
                 :: [WatcherReady; ClientReady fine; WatcherAdd "/watch/next.png" fine])))
  = O
  ∧ count is_ChannelSend
      (history (run sample_env
                  ([ClientDebug "Preparing to connect"]
                   ++ WatcherAdd "/watch/shot.png" fine
                   :: [WatcherReady; ClientReady fine; WatcherAdd "/watch/next.png" fine])))
    = 1%nat.
Proof.
  split; [|vm_compute; reflexivity].
  apply (events_before_ready_are_lost sample_env [ClientDebug "Preparing to connect"]
           [WatcherReady; ClientReady fine; WatcherAdd "/watch/next.png" fine]
           fine "/watch/shot.png").
  - apply configured_lookups. repeat split; vm_compute; reflexivity.
  - reflexivity.
  - repeat constructor.
Defined.

(** ** [path.extname] and [path.basename] on any path *)

Lemma get_Some_lt (s : string) : ∀ i c, String.get i s = Some c → (i < String.length s)%nat.
Proof.
  induction s as [|a s IH]; intros i c H; [destruct i; discriminate H|].
  destruct i as [|i]; simpl in *; [lia|]. apply IH in H. lia.
Qed.

Lemma get_None_ge (s : string) : ∀ i, String.get i s = None → (String.length s <= i)%nat.
Proof.
  induction s as [|a s IH]; intros i H; simpl; [lia|].
  destruct i as [|i]; simpl in *; [discriminate H|]. apply IH in H. lia.
Qed.

Ltac use_scan_hyps :=
  repeat match goal with
  | H : ?a ≠ -1, Hsd : ?a ≠ -1 → _ |- _ => specialize (Hsd H)
  | H : ?a ≠ 0, Hpd : ?a ≠ 0 → _ |- _ => specialize (Hpd H)
  | H : ?a = -1, Hsd : ?a = -1 → _ |- _ => specialize (Hsd H)
  | H : _ ∧ _ |- _ => destruct H
  end.

Ltac scan_goal i Hget Hslash Hsl :=
  simpl; repeat split; intros; use_scan_hyps;
  first [ lia | tauto | congruence | assumption | discriminate
        | left; lia | right; lia
        | match goal with
          | |- String.get ?j _ ≠ Some Path.CHAR_FORWARD_SLASH =>
            destruct (Nat.eq_dec j i) as [->|?];
            [ rewrite Hget; intros ?; apply Hslash; congruence
            | apply Hsl; lia ]
          end
        | match goal with
          | |- String.get ?j _ ≠ Some Path.CHAR_FORWARD_SLASH => apply Hsl; lia
          end ].

Lemma extname_loop_post (path : string) (n : nat) : ∀ s,
  scan_inv path n s → scan_post path (Path.extname_loop path n s).
Proof.
  induction n as [|i IH]; intros [sd sp e ms pd] (Hsp & Hms & He & Hsd0 & Hsd & Hpd & Hsl);
    simpl in *; subst sp.
  - assert (Hget : String.get 0 path = String.get 0 path) by reflexivity.
    unfold scan_post. destruct He; scan_goal 0%nat Hget Hget Hsl.
  - destruct (String.get i path) as [code|] eqn:Hget.
    2:{ apply get_None_ge in Hget.
        unfold scan_post. destruct He; simpl; repeat split; intros; use_scan_hyps;
          first [ lia | assumption | left; lia | right; lia | exfalso; lia ]. }
    pose proof (get_Some_lt _ _ _ Hget) as Hlt.
    destruct (Ascii.eqb code Path.CHAR_FORWARD_SLASH) eqn:Hslash.
    + destruct ms; simpl.
      * apply IH. unfold scan_inv.
        assert (e = -1) by (apply Hms; reflexivity). subst e.
        scan_goal i Hget Hget Hsl.
      * assert (e ≠ -1) by (intros He'; apply Hms in He'; discriminate He').
        unfold scan_post. destruct He; [contradiction|].
        scan_goal i Hget Hget Hsl.
    + apply Ascii.eqb_neq in Hslash.
      apply IH.
      destruct (Z.eqb_spec e (-1)) as [->|Hend]; simpl.
      * assert (Hsd1 : sd = -1).
        { destruct (Z.eq_dec sd (-1)) as [|Hne]; [assumption|]. destruct (Hsd Hne); lia. }
        subst sd. specialize (Hsd0 eq_refl). subst pd. simpl.
        destruct (Ascii.eqb code Path.CHAR_DOT) eqn:Hdot; simpl.
        -- apply Ascii.eqb_eq in Hdot. subst code.
           unfold scan_inv; simpl. rewrite Nat2Z.id.
           scan_goal i Hget Hslash Hsl.
        -- unfold scan_inv. scan_goal i Hget Hslash Hsl.
      * assert (Hms' : ms = false).
        { destruct ms; [|reflexivity]. exfalso. apply Hend, Hms. reflexivity. }
        subst ms. destruct He as [He|He]; [contradiction|].
        destruct (Ascii.eqb code Path.CHAR_DOT) eqn:Hdot; simpl.
        -- apply Ascii.eqb_eq in Hdot. subst code.
           destruct (Z.eqb_spec sd (-1)) as [->|Hsdne]; simpl.
           ++ specialize (Hsd0 eq_refl). subst pd.
              unfold scan_inv; simpl. rewrite Nat2Z.id.
              scan_goal i Hget Hslash Hsl.
           ++ destruct (Hsd Hsdne) as [Hrange Hdotat].
              destruct (Z.eqb_spec pd 1) as [->|Hpd1]; simpl;
                unfold scan_inv; scan_goal i Hget Hslash Hsl.
        -- destruct (Z.eqb_spec sd (-1)) as [->|Hsdne]; simpl.
           ++ specialize (Hsd0 eq_refl). subst pd.
              unfold scan_inv. scan_goal i Hget Hslash Hsl.
           ++ destruct (Hsd Hsdne) as [Hrange Hdotat].
              unfold scan_inv. scan_goal i Hget Hslash Hsl.
Qed.

Lemma scan_inv_start (path : string) : scan_inv path (String.length path) Path.scan0.
Proof.
  unfold scan_inv, Path.scan0; simpl.
  repeat split; intros; first [ lia | tauto | congruence | left; lia ].
Qed.

Lemma basename_loop_follows (path : string) (n : nat) : ∀ s start e matched,
  start = Path.startPart s → e = Path.end_ s → matched = Path.matchedSlash s →
  Path.basename_loop path n (start, e, matched) =
    (Path.startPart (Path.extname_loop path n s),
     Path.end_ (Path.extname_loop path n s),
     Path.matchedSlash (Path.extname_loop path n s)).
Proof.
  induction n as [|i IH]; intros [sd sp e' ms pd] start e matched -> -> ->; simpl;
    [reflexivity|].
  destruct (String.get i path) as [code|]; [|reflexivity].
  destruct (Ascii.eqb code Path.CHAR_FORWARD_SLASH).
  - destruct ms; simpl; [apply IH; reflexivity | reflexivity].
  - destruct (e' =? -1); simpl;
      destruct (Ascii.eqb code Path.CHAR_DOT); simpl;
      destruct (sd =? -1); simpl; try destruct (pd =? 1); simpl;
      apply IH; reflexivity.
Qed.

Lemma substring_split (s : string) : ∀ a m k,
  String.substring a (m + k) s = String.substring a m s +:+ String.substring (a + m) k s.
Proof.
  induction s as [|c s IH]; intros a m k.
  - destruct a, m, k; reflexivity.
  - destruct a as [|a]; simpl.
    + destruct m as [|m]; simpl; [reflexivity|]. rewrite (IH 0%nat m k). reflexivity.
    + apply IH.
Qed.

Lemma length_substring (s : string) : ∀ a m,
  (a + m <= String.length s)%nat → String.length (String.substring a m s) = m.
Proof.
  induction s as [|c s IH]; intros a m H; simpl in H.
  - assert (a = O ∧ m = O) as [-> ->] by lia. reflexivity.
  - destruct a as [|a]; simpl.
    + destruct m as [|m]; simpl; [reflexivity|]. rewrite IH; [reflexivity|lia].
    + apply IH. lia.
Qed.

(** The last component of a path has no slash in it. *)
Lemma basename_has_no_slash (path : string) (k : nat) :
  String.get k (Path.basename path) ≠ Some Path.CHAR_FORWARD_SLASH.
Proof.
  unfold Path.basename.
  rewrite (basename_loop_follows path (String.length path) Path.scan0 0 (-1) true
             eq_refl eq_refl eq_refl).
  destruct (extname_loop_post path _ _ (scan_inv_start path))
    as (Hsp & He & _ & _ & Hsl).
  destruct (Z.eqb_spec (Path.end_ (Path.extname_loop path (String.length path) Path.scan0)) (-1))
    as [Hend|Hend].
  - destruct k; discriminate.
  - destruct He as [He|He]; [contradiction|]. unfold Path.slice.
    destruct (Nat.lt_ge_cases k
                (Z.to_nat (Path.end_ (Path.extname_loop path (String.length path) Path.scan0)
                           - Path.startPart (Path.extname_loop path (String.length path) Path.scan0))))
      as [Hk|Hk].
    + rewrite String.substring_correct1 by exact Hk. apply Hsl. lia.
    + rewrite String.substring_correct2 by exact Hk. discriminate.
Qed.

(** An extension starts with a dot and ends the last component, after at
    least one character. *)
Lemma extname_is_suffix_of_basename (path : string) :
  Path.extname path = ""
  ∨ ∃ stem rest,
      stem ≠ ""
      ∧ Path.extname path = String Path.CHAR_DOT rest
      ∧ Path.basename path = stem +:+ Path.extname path.
Proof.
  unfold Path.extname, Path.basename.
  rewrite (basename_loop_follows path (String.length path) Path.scan0 0 (-1) true
             eq_refl eq_refl eq_refl).
  destruct (extname_loop_post path _ _ (scan_inv_start path))
    as (Hsp & He & Hsd & Hpd & _).
  destruct (Path.extname_loop path (String.length path) Path.scan0)
    as [sd sp e ms pd]; simpl in *.
  destruct (Z.eqb_spec sd (-1)) as [|Hsdne]; [left; reflexivity|].
  destruct (Z.eqb_spec e (-1)) as [|Hene]; [left; reflexivity|].
  destruct (Z.eqb_spec pd 0) as [|Hpdne]; [left; reflexivity|]. simpl.
  destruct ((pd =? 1) && (sd =? e - 1) && (sd =? sp + 1)); [left; reflexivity|].
  right. destruct (Hsd Hsdne) as [Hrange Hdot]. specialize (Hpd Hpdne).
  destruct He as [He|He]; [contradiction|].
  unfold Path.slice.
  exists (String.substring (Z.to_nat sp) (Z.to_nat (sd - sp)) path).
  assert (Hext : ∃ rest, String.substring (Z.to_nat sd) (Z.to_nat (e - sd)) path
                         = String Path.CHAR_DOT rest).
  { destruct (String.substring (Z.to_nat sd) (Z.to_nat (e - sd)) path) as [|c rest] eqn:Hsub.
    - apply (f_equal String.length) in Hsub. rewrite length_substring in Hsub by lia.
      simpl in Hsub. lia.
    - exists rest. f_equal.
      assert (Hc : String.get 0 (String c rest) = Some c) by reflexivity.
      rewrite <- Hsub, String.substring_correct1 in Hc by lia.
      simpl in Hc. congruence. }
  destruct Hext as [rest Hrest]. exists rest. repeat split.
  - intros Hstem. apply (f_equal String.length) in Hstem.
    rewrite length_substring in Hstem by lia. simpl in Hstem. lia.
  - exact Hrest.
  - replace (Z.to_nat (e - sp)) with (Z.to_nat (sd - sp) + Z.to_nat (e - sd))%nat by lia.
    rewrite substring_split. f_equal. f_equal. lia.
Qed.

(** X8: for every path, [path.basename] has no slash in it, and
    [path.extname] is either empty or starts with a dot and is the end of
    [path.basename], with at least one character of the name before it. *)
Theorem extension_ends_the_file_name (path : string) :
  (∀ k, String.get k (Path.basename path) ≠ Some Path.CHAR_FORWARD_SLASH)
  ∧ (Path.extname path = ""
     ∨ ∃ stem rest,
         stem ≠ ""
         ∧ Path.extname path = String Path.CHAR_DOT rest
         ∧ Path.basename path = stem +:+ Path.extname path).
Proof.
  split.
  - intros k. apply basename_has_no_slash.
  - apply extname_is_suffix_of_basename.
Qed.

(** ** The name under which a file is uploaded *)

(** X9: whenever the listener uploads, it sends one file: the attachment
    is the event's path, and its name is a bare file name, without a slash,
    made of at least one character followed by [.png] in some mix of
    cases. *)
Theorem uploaded_name_is_a_png_name (env : environment) (w : world) (filePath : string)
    (c : channel) (files : list file_entry) :
  In (ChannelSend c files) (effects (on_add env w filePath)) →
  ∃ stem ext,
    stem ≠ "" ∧ In ext png_spellings
    ∧ files = [FileEntry filePath (stem +:+ ext)]
    ∧ ∀ k, String.get k (stem +:+ ext) ≠ Some Path.CHAR_FORWARD_SLASH.
Proof.
  intros Hin.
  assert (Hname : is_png filePath = true →
            ∃ stem ext, stem ≠ "" ∧ In ext png_spellings
              ∧ Path.basename filePath = stem +:+ ext
              ∧ ∀ k, String.get k (stem +:+ ext) ≠ Some Path.CHAR_FORWARD_SLASH).
  { intros Hp. apply is_png_spelling in Hp.
    destruct (extname_is_suffix_of_basename filePath) as [Hnone|(stem & rest & Hs & _ & Hb)].
    - rewrite Hnone in Hp. simpl in Hp.
      repeat (destruct Hp as [Hp|Hp]; try discriminate Hp). destruct Hp.
    - exists stem, (Path.extname filePath). repeat split; try assumption.
      intros k. rewrite <- Hb. apply basename_has_no_slash. }
  add_cases env w filePath;
    match goal with H : on_add _ _ _ = _ |- _ => rewrite H in Hin; simpl in Hin end;
    repeat (destruct Hin as [Hin|Hin]; try discriminate Hin); try contradiction;
    injection Hin as _ <-;
    destruct (Hname eq_refl) as (stem & ext & Hs & He & Hb & Hk);
    exists stem, ext; rewrite <- Hb; repeat split; try assumption;
    rewrite Hb; exact Hk.
Qed.

Lemma uploaded_name_is_a_png_name_example :
  ∃ stem ext,
    stem ≠ "" ∧ In ext png_spellings
    ∧ [FileEntry "/watch/out/shot.PNG" "shot.PNG"] =
        [FileEntry "/watch/out/shot.PNG" (stem +:+ ext)]
    ∧ ∀ k, String.get k (stem +:+ ext) ≠ Some Path.CHAR_FORWARD_SLASH.
Proof.
  apply (uploaded_name_is_a_png_name sample_env fine "/watch/out/shot.PNG" general).
  vm_compute. tauto.
Defined.

(** ** What the watcher is told to ignore *)

Lemma ignored_from_spec (s : string) : ∀ boundary,
  ignored_from boundary s = true ↔
  (boundary = true ∧ dot_and_one_more s = true)
  ∨ ∃ pre sep after,
      s = pre +:+ String sep after ∧ is_separator sep = true
      ∧ dot_and_one_more after = true.
Proof.
  induction s as [|c r IH]; intros boundary.
  - simpl. rewrite andb_false_r. split; [discriminate|].
    intros [[_ H]|(pre & sep & after & H & _)]; [discriminate H|].
    destruct pre; discriminate H.
  - cbn [ignored_from]. rewrite orb_true_iff, andb_true_iff, (IH (is_separator c)).
    split.
    + intros [H|[[Hsep Hdot]|(pre & sep & after & -> & Hsep & Hdot)]].
      * left. exact H.
      * right. exists "", c, r. repeat split; assumption.
      * right. exists (String c pre), sep, after. repeat split; assumption.
    + intros [H|(pre & sep & after & Heq & Hsep & Hdot)]; [left; exact H|].
      right. destruct pre as [|c' pre]; simpl in Heq; injection Heq as -> ->.
      * left. split; assumption.
      * right. exists pre, sep, after. repeat split; assumption.
Qed.

(** X10: the pattern given to the watcher as [ignored] matches a path
    exactly when a dot that is followed by one more character, not a line
    terminator, stands at the start of the path or right after a [/] or a
    [\].  So every path that goes through a file or a directory whose name
    starts with a dot and has a second character is matched, wherever the
    directory is and whatever follows; a name that is the dot alone is not
    matched, nor is a path such as [/watch/shot.png]. *)
Theorem ignored_matches_dot_names (path : string) :
  (ignored_test path = true ↔
   dot_and_one_more path = true
   ∨ ∃ pre sep after,
       path = pre +:+ String sep after ∧ is_separator sep = true
       ∧ dot_and_one_more after = true)
  ∧ (∀ dir c rest,
       line_terminator_ahead (String c rest) = false →
       ignored_test (dir +:+ "/." +:+ String c rest) = true)
  ∧ ignored_test "/watch/shot.png" = false
  ∧ ignored_test "/watch/.hidden.png" = true
  ∧ ignored_test "/watch/.cache/shot.png" = true
  ∧ ignored_test "/watch/." = false.
Proof.
  split.
  { unfold ignored_test. rewrite ignored_from_spec. split.
    - intros [[_ H]|H]; [left; exact H|right; exact H].
    - intros [H|H]; [left; split; [reflexivity|exact H]|right; exact H]. }
  split; [|repeat split; reflexivity].
  intros dir c rest Hc. unfold ignored_test. apply ignored_from_spec. right.
  exists dir, "/"%char, (String "."%char (String c rest)).
  split; [reflexivity|]. split; [reflexivity|].
  cbn [dot_and_one_more]. rewrite Hc. reflexivity.
Qed.

Lemma ignored_matches_dot_names_example :
  ignored_test ("/home/user/shots" +:+ "/." +:+ String "g"%char "it/HEAD") = true.
Proof.
  apply (proj1 (proj2 (ignored_matches_dot_names "")) "/home/user/shots" "g"%char "it/HEAD").
  reflexivity.
Defined.

(** ** The values read from the environment after validation *)

Lemma emit_forall (P : effect → Prop) n (listener : js unit) :
  outcome listener = Normal tt → Forall P (effects listener) →
  Forall P (effects (emit n listener)).
Proof.
  intros Hl HP. induction n as [|n IH]; [constructor|].
  rewrite emit_effects by exact Hl. apply Forall_app. split; assumption.
Qed.

Lemma only_console_set (h : list effect) :
  only_console h → Forall (λ e, argument_is_set e = true) h.
Proof.
  intros Hh. induction Hh as [|e h He _ IH]; constructor; [|exact IH].
  destruct e; try discriminate He. reflexivity.
Qed.

Lemma react_arguments_set env h n :
  falsy (env !! "CHANNEL_ID") = false →
  Forall (λ e, argument_is_set e = true) (effects (react env h n)).
Proof.
  intros Hc.
  destruct n; cbn [react]; apply emit_forall;
    lazymatch goal with
    | |- outcome (on_client_ready _ _) = _ => apply on_client_ready_effects
    | |- outcome (on_add _ _ _) = _ => apply on_add_returns
    | |- outcome _ = _ => reflexivity
    | |- Forall _ (effects (on_client_ready _ _)) =>
      destruct (on_client_ready_effects env w) as [-> _];
      apply Forall_app; split;
      [ repeat constructor; simpl; rewrite Hc; reflexivity
      | apply only_console_set, verify_resume_console ]
    | |- Forall _ (effects (on_add _ _ _)) =>
      add_cases env w filePath; repeat constructor; simpl; rewrite Hc; reflexivity
    | |- Forall _ _ => repeat constructor
    end.
Qed.

Lemma continue_arguments_set env ns : ∀ st,
  falsy (env !! "CHANNEL_ID") = false →
  Forall (λ e, argument_is_set e = true) (history st) →
  Forall (λ e, argument_is_set e = true) (history (continue env st ns)).
Proof.
  induction ns as [|n ns IH]; intros st Hc Hst; simpl; [exact Hst|].
  apply IH; [exact Hc|]. unfold deliver.
  destruct (uncaught st); [exact Hst|]. simpl.
  apply Forall_app. split; [exact Hst | apply react_arguments_set, Hc].
Qed.

Lemma aborted_run_arguments_set env ns :
  ¬ configured env →
  Forall (λ e, argument_is_set e = true) (history (run env ns)).
Proof.
  intros Hnot.
  destruct (main_not_configured env Hnot) as (missing & logged & _ & _ & Hlog & Hmain).
  change (run env ns) with (continue env (start env) ns).
  rewrite (continue_aborted env ns (start env)
             (Error ("Missing required environment variable: " +:+ missing)));
    unfold start; rewrite Hmain; [|reflexivity].
  constructor; [reflexivity | apply only_console_set, Hlog].
Qed.

(** X11: in every run, whatever the environment and whatever is notified,
    [chokidar.watch] is called with a watch path, [client.login] with a
    token and [channels.fetch] with a channel id that is there and not
    empty: the script gets to these calls only past the validation, and the
    listeners read the same environment. *)
Theorem calls_get_validated_values (env : environment) (ns : list notification) :
  Forall (λ e, argument_is_set e = true) (history (run env ns)).
Proof.
  destruct (falsy (env !! "DISCORD_TOKEN")) eqn:Ht;
    [|destruct (falsy (env !! "CHANNEL_ID")) eqn:Hc;
      [|destruct (falsy (env !! "WATCH_PATH")) eqn:Hp]];
    try (apply aborted_run_arguments_set; rewrite configured_lookups;
         intros (? & ? & ?); congruence).
  assert (Hcfg : configured env) by (apply configured_lookups; tauto).
  apply (continue_arguments_set env ns (start env) Hc).
  unfold start. cbn [history].
  rewrite (main_configured env Hcfg), (validate_configured env Hcfg).
  repeat constructor; simpl; rewrite ?Hp, ?Ht; reflexivity.
Qed.

Lemma calls_get_validated_values_example :
  Forall (λ e, argument_is_set e = true)
         (history (run sample_env [ClientReady fine; WatcherAdd "/watch/shot.png" fine])).
Proof.
  apply (calls_get_validated_values sample_env
           [ClientReady fine; WatcherAdd "/watch/shot.png" fine]).
Defined.

(** ** A process that has started *)

(** X12: once the validation has passed, nothing that is notified stops the
    process: rejected logins, errors of the client or of the watcher, files
    that vanish, lookups and uploads that fail all leave it running, with no
    exception uncaught and the watcher holding it open.  What it has done is
    never undone: the history only grows. *)
Theorem started_process_keeps_running (env : environment) (ns more : list notification) :
  configured env →
  uncaught (run env ns) = None
  ∧ exited (run env ns) = false
  ∧ ∃ added, history (run env (ns ++ more)) = history (run env ns) ++ added.
Proof.
  intros Hcfg.
  destruct (run_keeps env ns Hcfg) as (Hrun & _ & _ & Hopen & _).
  split; [exact Hrun|]. split.
  - unfold exited. rewrite Hrun, Hopen. reflexivity.
  - unfold run. rewrite fold_left_app.
    change (fold_left (deliver env) ns (start env)) with (run env ns).
    destruct (continue_keeps env more (run env ns) Hrun) as (_ & _ & _ & _ & added & Hadded).
    exists added. exact Hadded.
Qed.

Lemma started_process_keeps_running_example :
  exited (run sample_env
            [LoginRejects (Error "An invalid token was provided.");
             WatcherError (Error "EMFILE"); ClientError (Error "socket hang up")]) = false.
Proof.
  apply (started_process_keeps_running sample_env
           [LoginRejects (Error "An invalid token was provided.");
            WatcherError (Error "EMFILE"); ClientError (Error "socket hang up")] []).
  apply configured_lookups. repeat split; vm_compute; reflexivity.
Defined.

(** * The credential and the console *)

(** C9, as the script has it: the validation writes one debug line per
    variable it has checked, and the line for [DISCORD_TOKEN] says
    [[HIDDEN]] in place of the value, so that what the validation does, lines
    and outcome, is the same for any two credentials that are set.  No
    console call of the script is given the credential either: it goes to
    [client.login] only, and the console output of a whole run is the same
    for any two credentials when the client and the watcher notify the same.
    What the client says in a Debug notification is not the script's text,
    and the script prints it as it comes, whatever it is. *)
Theorem validation_redacts_credential (env : environment) (t1 t2 : string)
    (ns : list notification) (info : string) :
  t1 ≠ "" → t2 ≠ "" →
  validate (<["DISCORD_TOKEN" := t1]> env) requiredEnvVars
  = validate (<["DISCORD_TOKEN" := t2]> env) requiredEnvVars
  ∧ console (history (run (<["DISCORD_TOKEN" := t1]> env) ns))
    = console (history (run (<["DISCORD_TOKEN" := t2]> env) ns))
  ∧ (configured (<["DISCORD_TOKEN" := t1]> env) →
     effects (validate (<["DISCORD_TOKEN" := t1]> env) requiredEnvVars) =
       [Console Log [VStr "[DEBUG] DISCORD_TOKEN is set to: [HIDDEN]"];
        Console Log [VStr ("[DEBUG] CHANNEL_ID is set to: " +:+ interpolate (env !! "CHANNEL_ID"))];
        Console Log [VStr ("[DEBUG] WATCH_PATH is set to: " +:+ interpolate (env !! "WATCH_PATH"))]]
     ∧ length (effects (validate (<["DISCORD_TOKEN" := t1]> env) requiredEnvVars))
       = length requiredEnvVars
     ∧ history (deliver (<["DISCORD_TOKEN" := t1]> env)
                  (run (<["DISCORD_TOKEN" := t1]> env) ns) (ClientDebug info))
       = history (run (<["DISCORD_TOKEN" := t1]> env) ns)
         ++ [Console Log [VStr "[DEBUG] Discord Debug:"; VStr info]]).
Proof.
  intros H1 H2.
  pose proof (validate_hides_token env t1 t2 H1 H2) as Hv.
  split; [exact Hv|]. split.
  - rewrite <- (console_redact (history (run (<["DISCORD_TOKEN" := t1]> env) ns))).
    rewrite <- (console_redact (history (run (<["DISCORD_TOKEN" := t2]> env) ns))).
    f_equal. unfold run.
    apply (continue_reads_target (<["DISCORD_TOKEN" := t1]> env)
             (<["DISCORD_TOKEN" := t2]> env) ns).
    + rewrite !lookup_insert_ne by discriminate. reflexivity.
    + rewrite !lookup_insert_ne by discriminate. reflexivity.
    + unfold start, main. rewrite Hv.
      rewrite !lookup_insert_eq, !lookup_insert_ne by discriminate.
      generalize (validate (<["DISCORD_TOKEN" := t2]> env) requiredEnvVars).
      generalize (env !! "WATCH_PATH"). clear.
      intros p [effs [[]|e]]; cbn; rewrite ?map_app; reflexivity.
    + unfold start, main. rewrite Hv.
      rewrite !lookup_insert_eq, !lookup_insert_ne by discriminate.
      generalize (validate (<["DISCORD_TOKEN" := t2]> env) requiredEnvVars).
      generalize (env !! "WATCH_PATH"). clear.
      intros p [effs [[]|e]]; reflexivity.
  - intros Hcfg. rewrite (validate_configured _ Hcfg).
    rewrite !lookup_insert_ne by discriminate.
    split; [reflexivity|]. split; [reflexivity|].
    destruct (run_listeners _ ns Hcfg) as (Hrun & Hon & _).
    rewrite (deliver_running _ _ _ Hrun). cbn [history react].
    rewrite Hon, emit_one by reflexivity. reflexivity.
Qed.

Lemma validation_redacts_credential_example :
  console (history (run (<["DISCORD_TOKEN" := "s3cr3t"]> sample_env)
                      [ClientReady fine; WatcherAdd "/watch/shot.png" fine]))
  = console (history (run (<["DISCORD_TOKEN" := "0ther"]> sample_env)
                        [ClientReady fine; WatcherAdd "/watch/shot.png" fine]))
  ∧ effects (validate (<["DISCORD_TOKEN" := "s3cr3t"]> sample_env) requiredEnvVars) =
      [Console Log [VStr "[DEBUG] DISCORD_TOKEN is set to: [HIDDEN]"];
       Console Log [VStr "[DEBUG] CHANNEL_ID is set to: 42"];
       Console Log [VStr "[DEBUG] WATCH_PATH is set to: /watch"]].
Proof.
  pose proof (validation_redacts_credential sample_env "s3cr3t" "0ther"
                [ClientReady fine; WatcherAdd "/watch/shot.png" fine] "Preparing to connect"
                ltac:(discriminate) ltac:(discriminate))
    as (_ & Hconsole & Hlines).
  split; [exact Hconsole|].
  assert (Hcfg : configured (<["DISCORD_TOKEN" := "s3cr3t"]> sample_env)).
  { apply configured_lookups. repeat split; vm_compute; reflexivity. }
  rewrite (proj1 (Hlines Hcfg)). vm_compute. reflexivity.
Defined.

(** C9 as stated fails: while it logs in, the client announces the token it
    was given in a Debug notification, line 48 prints every Debug
    notification, and the credential of the environment is then on the
    console in plain text. *)
Lemma credential_reaches_the_console :
  sample_env !! "DISCORD_TOKEN" = Some "s3cr3t"
  ∧ ¬ Forall (λ e, shows "s3cr3t" e = false)
        (history (run sample_env [ClientDebug "Provided token: s3cr3t"])).
Proof.
  split; [vm_compute; reflexivity|].
  intros Hnone. rewrite List.Forall_forall in Hnone.
  assert (Hline : shows "s3cr3t"
            (Console Log [VStr "[DEBUG] Discord Debug:"; VStr "Provided token: s3cr3t"])
            = false).
  { apply Hnone. vm_compute. tauto. }
  vm_compute in Hline. discriminate Hline.
Qed.
